(** * scripts/remove-debug-logs.py : the debug-statement stripper

    A shallow embedding of [remove_debug_logs] and of the Python [str]
    operations it relies on, followed by the properties of the transform.

    A Python [str] is a sequence of Unicode code points; it is modelled as
    a list of code points ([N]).  The [while] loops of the source that
    advance an index on every turn are structural recursions on the part of
    [lines] that is still ahead of the index; the outer loop, whose cursor
    [i] is not advanced on every path, is iterated under a fuel bound. *)

From Stdlib Require Import String Ascii NArith Lia.
From stdpp Require Import base list.

(** ** Python strings *)

Definition char := N.
Definition pystr := list char.

(** An ASCII literal, as a sequence of code points. *)
Fixpoint py (s : string) : pystr :=
  match s with
  | EmptyString => []
  | String a s' => N_of_ascii a :: py s'
  end.
Arguments py s%_string.

(** The double quote character, and a double-quoted piece of text. *)
Definition dq : pystr := [34%N].
Definition quoted (s : pystr) : pystr := dq ++ s ++ dq.

Fixpoint str_eqb (s t : pystr) : bool :=
  match s, t with
  | [], [] => true
  | a :: s', b :: t' => N.eqb a b && str_eqb s' t'
  | _, _ => false
  end.

(** [s.startswith(p)] *)
Fixpoint startswith (p s : pystr) : bool :=
  match p, s with
  | [], _ => true
  | a :: p', b :: s' => N.eqb a b && startswith p' s'
  | _ :: _, [] => false
  end.

(** [s.endswith(p)] *)
Definition endswith (p s : pystr) : bool := startswith (rev p) (rev s).

(** [sub in s] *)
Fixpoint contains (sub s : pystr) : bool :=
  startswith sub s ||
  match s with
  | [] => false
  | _ :: s' => contains sub s'
  end.

(** [str.isspace] on one code point (CPython's [_PyUnicode_IsWhitespace]). *)
Definition isspace (c : char) : bool :=
  ((9 <=? c) && (c <=? 13) || (28 <=? c) && (c <=? 32)
   || (c =? 133) || (c =? 160) || (c =? 5760)
   || (8192 <=? c) && (c <=? 8202)
   || (c =? 8232) || (c =? 8233) || (c =? 8239) || (c =? 8287)
   || (c =? 12288))%N.

Fixpoint lstrip (s : pystr) : pystr :=
  match s with
  | [] => []
  | c :: s' => if isspace c then lstrip s' else s
  end.

Definition rstrip (s : pystr) : pystr := rev (lstrip (rev s)).

Definition strip (s : pystr) : pystr := rstrip (lstrip s).

(** [content.split('\n')] and ['\n'.join(result)]. *)
Definition newline : char := 10%N.

Fixpoint split_lines (s : pystr) : list pystr :=
  match s with
  | [] => [[]]
  | c :: s' =>
      if N.eqb c newline then [] :: split_lines s'
      else match split_lines s' with
           | [] => [[c]]
           | l :: ls => (c :: l) :: ls
           end
  end.

Fixpoint join_lines (ls : list pystr) : pystr :=
  match ls with
  | [] => []
  | [l] => l
  | l :: ls' => l ++ newline :: join_lines ls'
  end.

(** ** The fixed vocabulary of the detection rules *)

Definition debug_marker : pystr := py ".Debug(".
Definition with_fields_opener : pystr := py ".WithFields(log.Fields{".
Definition with_field_opener : pystr := py ".WithField(".
Definition comment_marker : pystr := py "//".
Definition close_paren : pystr := py ")".
Definition close_brace : pystr := py "}".
Definition close_brace_paren : pystr := py "})".

(** ['.Debug(' in line] *)
Definition has_debug_marker (line : pystr) : bool := contains debug_marker line.

(** [line.strip().startswith('//')] *)
Definition is_comment (line : pystr) : bool :=
  startswith comment_marker (strip line).

(** [line.rstrip().endswith(')')] *)
Definition closes_call (line : pystr) : bool :=
  endswith close_paren (rstrip line).

(** ['.WithFields(log.Fields{' in line or '.WithField(' in line] *)
Definition has_opener (line : pystr) : bool :=
  contains with_fields_opener line || contains with_field_opener line.

(** The guard of the direct rule (source line 22). *)
Definition is_direct (line : pystr) : bool :=
  has_debug_marker line && negb (is_comment line).

(** The guard of the chain rule (source lines 39-40). *)
Definition is_candidate (line : pystr) : bool :=
  has_opener line && negb (is_comment line).

(** ** The loops of [remove_debug_logs] *)

(** The inner loop of the direct rule (source lines 31-35), entered with
    [ahead] the lines from index [i] on:
    [while i < len(lines): if lines[i] closes: i += 1; break
                           i += 1].
    It leaves [i] just past the first closing line, or at [len(lines)]. *)
Fixpoint skip_past_close (ahead : list pystr) (i : nat) : nat :=
  match ahead with
  | [] => i
  | l :: ahead' =>
      if closes_call l then i + 1 else skip_past_close ahead' (i + 1)
  end.

(** The inner loop of the chain rule (source lines 59-63), entered with
    [ahead] the lines from index [j] on:
    [while j < len(lines): if lines[j] closes: i = j + 1; break
                           j += 1].
    The cursor [i] is assigned only when a closing line is found. *)
Fixpoint find_close (ahead : list pystr) (j i : nat) : nat :=
  match ahead with
  | [] => i
  | l :: ahead' =>
      if closes_call l then j + 1 else find_close ahead' (j + 1) i
  end.

(** What the lookahead loop leaves behind: the buffer, the flag and the
    cursor. *)
Record scan := Scan {
  lookahead : list pystr;
  has_debug : bool;
  cursor : nat
}.

(** The lookahead loop (source lines 48-80), entered with [ahead] the lines
    from index [j] on, [buf] the buffer so far and [i] the cursor of the
    outer loop. *)
Fixpoint lookahead_loop (ahead : list pystr) (j : nat) (buf : list pystr)
    (i : nat) : scan :=
  match ahead with
  | [] => Scan buf false i
  | l :: ahead' =>
      let buf := buf ++ [l] in
      if has_debug_marker l then
        if closes_call l then Scan buf true (j + 1)
        else Scan buf true (find_close ahead' (j + 1) i)
      else if startswith close_brace_paren (strip l)
              && negb (has_debug_marker l) then
        Scan buf false i
      else if str_eqb (strip l) close_brace_paren then
        lookahead_loop ahead' (j + 1) buf i
      else if startswith dq (strip l) && negb (has_debug_marker l) then
        lookahead_loop ahead' (j + 1) buf i
      else if negb (startswith dq (strip l)
                    || str_eqb (strip l) close_brace
                    || startswith close_brace_paren (strip l)) then
        Scan buf false i
      else
        lookahead_loop ahead' (j + 1) buf i
  end.

(** The state of the outer loop: the cursor [i] and [result]. *)
Definition state : Type := nat * list pystr.

(** The direct rule (source lines 22-36): nothing is emitted. *)
Definition direct_rule (lines : list pystr) (i : nat) (line : pystr)
    (result : list pystr) : state :=
  if closes_call line then (i + 1, result)
  else (skip_past_close (drop (i + 1) lines) (i + 1), result).

(** The chain rule (source lines 39-86). *)
Definition chain_scan (lines : list pystr) (i : nat) (line : pystr) : scan :=
  lookahead_loop (drop (i + 1) lines) (i + 1) [line] i.

Definition chain_rule (lines : list pystr) (i : nat) (line : pystr)
    (result : list pystr) : state :=
  let s := chain_scan lines i line in
  if has_debug s then (cursor s, result)
  else (i + 1, result ++ [line]).

(** One turn of the outer loop (source lines 18-90), for [i < len(lines)]. *)
Definition body (lines : list pystr) (st : state) : state :=
  let '(i, result) := st in
  match lines !! i with
  | None => st
  | Some line =>
      if is_direct line then direct_rule lines i line result
      else if is_candidate line then chain_rule lines i line result
      else (i + 1, result ++ [line])
  end.

(** The outer loop [while i < len(lines)], for at most [fuel] tests of its
    condition; [None] when the fuel does not suffice. *)
Fixpoint loop (fuel : nat) (lines : list pystr) (st : state)
    : option (list pystr) :=
  match fuel with
  | 0 => None
  | S fuel' =>
      if st.1 <? length lines then loop fuel' lines (body lines st)
      else Some st.2
  end.

(** The transform on the sequence of lines.  Every turn either advances the
    cursor or leaves the whole state as it was (lemmas [body_turn],
    [loop_enough] and [loop_stuck] below), so [length lines + 1] tests
    decide the outcome: [None] stands for a loop that never ends. *)
Definition remove_debug_lines (lines : list pystr) : option (list pystr) :=
  loop (length lines + 1) lines (0, []).

(** [remove_debug_logs(content)]. *)
Definition remove_debug_logs (content : pystr) : option pystr :=
  join_lines <$> remove_debug_lines (split_lines content).

(** The outcome of the loop from a state, with the fuel that decides it. *)
Definition run (lines : list pystr) (st : state) : option (list pystr) :=
  loop (length lines - st.1 + 1) lines st.

(** A line over which the lookahead goes on: it has no debug marker and,
    trimmed, starts with a quote or is a lone closing brace. *)
Definition is_continuation (l : pystr) : bool :=
  negb (has_debug_marker l)
  && (startswith dq (strip l) || str_eqb (strip l) close_brace).

(** The state after [n] turns of the outer loop, from the initial state;
    once the loop has ended the state stays as it is. *)
Definition step (lines : list pystr) (st : state) : state :=
  if st.1 <? length lines then body lines st else st.

Definition after_turns (n : nat) (lines : list pystr) : state :=
  Nat.iter n (step lines) (0, []).

(** The three things a turn can do: leave the state as it is, move the
    cursor forward without emitting, or emit the line under the cursor and
    step to the next one. *)
Inductive turn (lines : list pystr) (i : nat) (r : list pystr) : state -> Prop :=
  | turn_stuck : turn lines i r (i, r)
  | turn_drop i' : i < i' <= length lines -> turn lines i r (i', r)
  | turn_keep line :
      lines !! i = Some line -> is_direct line = false ->
      turn lines i r (i + 1, r ++ [line]).

(** What has been emitted is a subsequence of the lines behind the cursor,
    and no emitted line is the start of a direct statement. *)
Definition emitted_ok (lines : list pystr) (st : state) : Prop :=
  st.2 `sublist_of` take st.1 lines /\
  Forall (fun l => is_direct l = false) st.2.

(** Every debug call that is opened is closed: a line with the marker
    ends with a closing parenthesis or has, somewhere after it, a line that
    does. *)
Definition calls_closed (lines : list pystr) : Prop :=
  forall j d,
    lines !! j = Some d -> has_debug_marker d = true -> closes_call d = false ->
    exists k c, j < k /\ lines !! k = Some c /\ closes_call c = true.

(** With as many lines emitted as the cursor has passed, every line behind
    the cursor has been kept by its own turn. *)
Definition all_kept_so_far (lines : list pystr) (st : state) : Prop :=
  length st.2 <= st.1 <= length lines
  /\ (length st.2 = st.1 ->
      forall k line, k < st.1 -> lines !! k = Some line ->
        is_direct line = false
        /\ (is_candidate line = true ->
            has_debug (chain_scan lines k line) = false)).

(** Two lines of the same kind: the tests of the loops do not tell them
    apart. *)
Definition same_kind (l l' : pystr) : Prop :=
  has_debug_marker l' = has_debug_marker l
  /\ is_comment l' = is_comment l
  /\ has_opener l' = has_opener l
  /\ closes_call l' = closes_call l
  /\ is_continuation l' = is_continuation l.

(** A line between two margins. *)
Definition with_margins (ws ws' l : pystr) : pystr := ws ++ l ++ ws'.

(** ** The callers: [process_file] and [main] *)

(** What the callers ask of their surroundings.  [read_text] is
    [open(filepath, 'r', encoding='utf-8')] followed by [f.read()]: the
    decoded text, or [None] when either raises.  [write_text] is
    [open(filepath, 'w', encoding='utf-8')] followed by [f.write(text)]: the
    files afterwards, and whether it went through without raising.
    [base_dir_exists] is [base_dir.exists()] and [rglob_go] is
    [list(base_dir.rglob('*.go'))], for the fixed [base_dir] of [main]. *)
Class FileSystem (FS path : Type) := {
  read_text : FS -> path -> option pystr;
  write_text : FS -> path -> pystr -> FS * bool;
  base_dir_exists : FS -> bool;
  rglob_go : FS -> list path
}.

(** The lines printed, on the standard output or on the standard error,
    by what they say; the text of the exception in [ErrorProcessing] and
    the form of the path in [Modified] are left out. *)
Inductive message (path : Type) : Type :=
  | ErrorProcessing (filepath : path)
  | DirectoryMissing
  | Removing
  | BlankLine
  | NoGoFiles
  | Modified (go_file : path)
  | AllRemoved
  | FilesModified (modified_count : nat).
Arguments ErrorProcessing {path} filepath.
Arguments DirectoryMissing {path}.
Arguments Removing {path}.
Arguments BlankLine {path}.
Arguments NoGoFiles {path}.
Arguments Modified {path} go_file.
Arguments AllRemoved {path}.
Arguments FilesModified {path} modified_count.

Definition is_Modified {path : Type} (m : message path) : bool :=
  match m with
  | Modified _ => true
  | _ => false
  end.

(** The files named by the [Modified] lines of an output, in order. *)
Definition modified_files {path : Type} (out : list (message path))
    : list path :=
  omap (fun m => match m with Modified p => Some p | _ => None end) out.

(** [process_file(filepath)] (source lines 98-117): the files afterwards,
    what was printed and the value returned; [None] when the transform
    never returns. *)
Definition process_file `{FileSystem FS path} (fs : FS) (filepath : path)
    : option (FS * list (message path) * bool) :=
  match read_text fs filepath with
  | None => Some (fs, [ErrorProcessing filepath], false)
  | Some content =>
      if negb (contains debug_marker content) then Some (fs, [], false)
      else
        match remove_debug_logs content with
        | None => None
        | Some new_content =>
            let '(fs', written) := write_text fs filepath new_content in
            if written then Some (fs', [], true)
            else Some (fs', [ErrorProcessing filepath], false)
        end
  end.

(** The loop of [main] over [go_files] (source lines 137-140). *)
Fixpoint process_all `{FileSystem FS path} (fs : FS) (go_files : list path)
    (modified_count : nat) (out : list (message path))
    : option (FS * nat * list (message path)) :=
  match go_files with
  | [] => Some (fs, modified_count, out)
  | go_file :: go_files' =>
      match process_file fs go_file with
      | None => None
      | Some (fs', printed, true) =>
          process_all fs' go_files' (modified_count + 1)
            (out ++ printed ++ [Modified go_file])
      | Some (fs', printed, false) =>
          process_all fs' go_files' modified_count (out ++ printed)
      end
  end.

(** [main()] (source lines 119-148): the files afterwards, what was printed
    and the exit status. *)
Definition main `{FileSystem FS path} (fs : FS)
    : option (FS * list (message path) * nat) :=
  if negb (base_dir_exists fs) then Some (fs, [DirectoryMissing], 1)
  else
    let out := [Removing; BlankLine] in
    let go_files := rglob_go fs in
    match go_files with
    | [] => Some (fs, out ++ [NoGoFiles], 0)
    | _ :: _ =>
        match process_all fs go_files 0 out with
        | None => None
        | Some (fs', modified_count, out') =>
            Some (fs', out' ++ [BlankLine; AllRemoved;
                                FilesModified modified_count], 0)
        end
    end.

(** A small file system to try the callers on: the files, with their text,
    in the order in which they are found; every write goes through. *)
Definition store : Type := list (pystr * pystr).

Fixpoint store_read (fs : store) (p : pystr) : option pystr :=
  match fs with
  | [] => None
  | (q, text) :: fs' => if str_eqb q p then Some text else store_read fs' p
  end.

Fixpoint store_write (fs : store) (p text : pystr) : store :=
  match fs with
  | [] => [(p, text)]
  | (q, text') :: fs' =>
      if str_eqb q p then (p, text) :: fs'
      else (q, text') :: store_write fs' p text
  end.

#[local] Instance store_fs : FileSystem store pystr := {|
  read_text := store_read;
  write_text fs p text := (store_write fs p text, true);
  base_dir_exists _ := true;
  rglob_go fs := map fst fs
|}.

(** ** Sample lines *)

Definition line_a : pystr := py "a".
Definition line_b : pystr := py "b".

(** ['log.Debug("x")'] *)
Definition debug_x : pystr := py "log.Debug(" ++ quoted (py "x") ++ py ")".

(** ['log.Debug('], ['  "x",'] and [')'] *)
Definition debug_open : pystr := py "log.Debug(".
Definition arg_x : pystr := py "  " ++ quoted (py "x") ++ py ",".
Definition lone_paren : pystr := py ")".

(** ['log.WithField("k", v).'] and ['log.WithField("k", v)'] *)
Definition with_field_dot : pystr :=
  py "log.WithField(" ++ quoted (py "k") ++ py ", v).".
Definition with_field : pystr :=
  py "log.WithField(" ++ quoted (py "k") ++ py ", v)".

(** ['  Debug("msg")'], ['  .Debug("msg")'] and ['  Info("msg")'] *)
Definition cont_debug : pystr := py "  Debug(" ++ quoted (py "msg") ++ py ")".
Definition cont_dot_debug : pystr :=
  py "  .Debug(" ++ quoted (py "msg") ++ py ")".
Definition cont_info : pystr := py "  Info(" ++ quoted (py "msg") ++ py ")".

(** ['x.WithField("k", v).'] and ['// y.Debug("msg")'] *)
Definition x_with_field_dot : pystr :=
  py "x.WithField(" ++ quoted (py "k") ++ py ", v).".
Definition comment_debug : pystr :=
  py "// y.Debug(" ++ quoted (py "msg") ++ py ")".


(** ['y.Debug('], ['y.WithField("k", v)'], ['z.Debug("m")'] and ['})'] *)
Definition y_debug_open : pystr := py "y.Debug(".
Definition y_with_field : pystr :=
  py "y.WithField(" ++ quoted (py "k") ++ py ", v)".
Definition z_debug : pystr := py "z.Debug(" ++ quoted (py "m") ++ py ")".
Definition brace_paren : pystr := py "})".


(** ** Sample inputs *)

(** An unterminated debug call at the end of a chain: the text
    ['x.WithField("k", v).\ny.Debug('] and its lines. *)
Definition unterminated_content : pystr :=
  x_with_field_dot ++ newline :: y_debug_open.
Definition unterminated_chain : list pystr := [x_with_field_dot; y_debug_open].

(** The chain samples of the specification, and the first one with the dot
    moved to the continuation line. *)
Definition chain_debug_sample : list pystr :=
  [line_a; with_field_dot; cont_debug; line_b].
Definition chain_dot_debug_sample : list pystr :=
  [line_a; with_field; cont_dot_debug; line_b].
Definition chain_info_sample : list pystr :=
  [line_a; with_field_dot; cont_info; line_b].

(** A kept chain opener that meets a commented-out debug call once the
    chain between them has been removed. *)
Definition two_pass_sample : list pystr :=
  [with_field; y_with_field; z_debug; comment_debug].

(** A chain opener, a lone ['})'] and a debug call. *)
Definition closing_token_sample : list pystr :=
  [with_field; brace_paren; z_debug].

(** A file in which the marker occurs in a comment only, and a file system
    without any marker. *)
Definition commented_store : store := [(py "c.go", comment_debug)].
Definition quiet_store : store := [(py "b.go", join_lines chain_info_sample)].

(** Two files: one with a debug call between two lines, one without. *)
Definition sample_store : store :=
  [(py "a.go", join_lines [line_a; debug_x; line_b]);
   (py "b.go", join_lines chain_info_sample)].

(** ** Proof steps *)

Ltac list_len :=
  repeat (rewrite length_app || cbn [Datatypes.length app]); lia.

(** ** Facts on the string tests *)

Lemma str_eqb_eq s t : str_eqb s t = true <-> s = t.
Proof.
  revert t. induction s as [|a s IH]; intros [|b t]; simpl; try easy.
  rewrite andb_true_iff, N.eqb_eq, IH. split.
  - intros [-> ->]. reflexivity.
  - intros [= -> ->]. auto.
Qed.

Lemma startswith_prefix p s : startswith p s = true <-> exists t, s = p ++ t.
Proof.
  revert s. induction p as [|a p IH]; intros s; simpl.
  - split; eauto.
  - destruct s as [|b s].
    + split; [easy | intros [t Ht]; discriminate].
    + rewrite andb_true_iff, N.eqb_eq, IH. split.
      * intros [-> [t ->]]. eauto.
      * intros [t [= -> ->]]. eauto.
Qed.

Lemma quote_not_brace_paren s :
  startswith dq s = true -> startswith close_brace_paren s = false.
Proof.
  intros [t ->]%startswith_prefix. reflexivity.
Qed.

Lemma brace_not_brace_paren s :
  str_eqb s close_brace = true -> startswith close_brace_paren s = false.
Proof.
  intros ->%str_eqb_eq. reflexivity.
Qed.

Lemma brace_paren_startswith s :
  str_eqb s close_brace_paren = true -> startswith close_brace_paren s = true.
Proof.
  intros ->%str_eqb_eq. reflexivity.
Qed.

(** ** One line of the lookahead *)

(** The five tests of the lookahead loop sort a scanned line into three
    kinds: a line with the marker ends the scan as a match, a continuation
    line is passed over, and any other line ends the scan as a non-match.
    The test [strip() == '})'] of source line 70 is never reached with a
    true outcome: the test of line 67 has stopped the scan before. *)
Lemma lookahead_loop_cons l ahead j buf i :
  lookahead_loop (l :: ahead) j buf i =
    if has_debug_marker l then
      Scan (buf ++ [l]) true
        (if closes_call l then j + 1 else find_close ahead (j + 1) i)
    else if is_continuation l then lookahead_loop ahead (j + 1) (buf ++ [l]) i
    else Scan (buf ++ [l]) false i.
Proof.
  unfold is_continuation. cbn [lookahead_loop].
  pose proof (quote_not_brace_paren (strip l)) as Hq.
  pose proof (brace_not_brace_paren (strip l)) as Hb.
  pose proof (brace_paren_startswith (strip l)) as Hbp.
  destruct (has_debug_marker l); cbn [negb andb].
  { destruct (closes_call l); reflexivity. }
  destruct (startswith close_brace_paren (strip l)),
    (startswith dq (strip l)), (str_eqb (strip l) close_brace),
    (str_eqb (strip l) close_brace_paren);
    cbn [negb andb orb]; try reflexivity;
    try (specialize (Hq eq_refl); discriminate);
    try (specialize (Hb eq_refl); discriminate);
    try (specialize (Hbp eq_refl); discriminate).
Qed.

Lemma lookahead_loop_nil j buf i : lookahead_loop [] j buf i = Scan buf false i.
Proof. reflexivity. Qed.

(** Continuation lines are passed over, one index each. *)
Lemma lookahead_loop_continuations conts ahead j buf i :
  Forall (fun l => is_continuation l = true) conts ->
  lookahead_loop (conts ++ ahead) j buf i =
    lookahead_loop ahead (j + length conts) (buf ++ conts) i.
Proof.
  intros H. revert j buf. induction H as [|l conts Hl _ IH]; intros j buf.
  - simpl. rewrite Nat.add_0_r, app_nil_r. reflexivity.
  - simpl app. rewrite lookahead_loop_cons.
    assert (has_debug_marker l = false) as ->.
    { unfold is_continuation in Hl. apply andb_true_iff in Hl as [Hl _].
      destruct (has_debug_marker l); [discriminate | reflexivity]. }
    rewrite Hl, IH. simpl length.
    rewrite <- app_assoc. simpl. f_equal. lia.
Qed.

(** ** The inner scans for a closing line *)

Lemma skip_past_close_none ahead i :
  Forall (fun l => closes_call l = false) ahead ->
  skip_past_close ahead i = i + length ahead.
Proof.
  intros H. revert i. induction H as [|l ahead Hl _ IH]; intros i; simpl.
  - lia.
  - rewrite Hl, IH. lia.
Qed.

Lemma skip_past_close_first mid c tail i :
  Forall (fun l => closes_call l = false) mid ->
  closes_call c = true ->
  skip_past_close (mid ++ c :: tail) i = i + length mid + 1.
Proof.
  intros H Hc. revert i. induction H as [|l mid Hl _ IH]; intros i; simpl.
  - rewrite Hc. lia.
  - rewrite Hl, IH. lia.
Qed.

Lemma skip_past_close_bounds ahead i :
  i <= skip_past_close ahead i <= i + length ahead.
Proof.
  revert i. induction ahead as [|l ahead IH]; intros i; simpl; [lia|].
  destruct (closes_call l); [lia|]. specialize (IH (i + 1)). lia.
Qed.

Lemma find_close_none ahead j i :
  Forall (fun l => closes_call l = false) ahead ->
  find_close ahead j i = i.
Proof.
  intros H. revert j. induction H as [|l ahead Hl _ IH]; intros j; simpl.
  - reflexivity.
  - rewrite Hl. apply IH.
Qed.

Lemma find_close_first mid c tail j i :
  Forall (fun l => closes_call l = false) mid ->
  closes_call c = true ->
  find_close (mid ++ c :: tail) j i = j + length mid + 1.
Proof.
  intros H Hc. revert j. induction H as [|l mid Hl _ IH]; intros j; simpl.
  - rewrite Hc. lia.
  - rewrite Hl, IH. lia.
Qed.

Lemma find_close_bounds ahead j i :
  find_close ahead j i = i \/ j < find_close ahead j i <= j + length ahead.
Proof.
  revert j. induction ahead as [|l ahead IH]; intros j; simpl; [auto|].
  destruct (closes_call l); [right; lia|].
  destruct (IH (j + 1)) as [->|?]; [auto | right; lia].
Qed.

(** The lookahead either leaves the cursor where it was or moves it past a
    line that lies ahead; without a match it always leaves it. *)
Lemma lookahead_loop_cursor ahead j buf i :
  let s := lookahead_loop ahead j buf i in
  cursor s = i \/ (has_debug s = true /\ j < cursor s <= j + length ahead).
Proof.
  revert j buf. induction ahead as [|l ahead IH]; intros j buf; [left; reflexivity|].
  cbv zeta. rewrite lookahead_loop_cons.
  destruct (has_debug_marker l).
  - simpl. destruct (closes_call l); [right; lia|].
    destruct (find_close_bounds ahead (j + 1) i) as [->|?]; [auto | right; lia].
  - destruct (is_continuation l); [|left; reflexivity].
    destruct (IH (j + 1) (buf ++ [l])) as [->|[? ?]]; [auto|].
    right. simpl. split; [assumption | lia].
Qed.

Lemma lookahead_loop_no_marker ahead j buf i :
  Forall (fun l => has_debug_marker l = false) ahead ->
  has_debug (lookahead_loop ahead j buf i) = false.
Proof.
  intros H. revert j buf. induction H as [|l ahead Hl _ IH]; intros j buf.
  - reflexivity.
  - rewrite lookahead_loop_cons, Hl.
    destruct (is_continuation l); [apply IH | reflexivity].
Qed.

(** ** One turn of the outer loop *)

Lemma body_lookup lines i line r :
  lines !! i = Some line ->
  body lines (i, r) =
    if is_direct line then direct_rule lines i line r
    else if is_candidate line then chain_rule lines i line r
    else (i + 1, r ++ [line]).
Proof. intros H. unfold body. rewrite H. reflexivity. Qed.

Lemma direct_rule_turn lines i line r :
  i < length lines -> turn lines i r (direct_rule lines i line r).
Proof.
  intros Hi. unfold direct_rule. destruct (closes_call line).
  - apply turn_drop. lia.
  - apply turn_drop.
    pose proof (skip_past_close_bounds (drop (i + 1) lines) (i + 1)) as Hb.
    rewrite length_drop in Hb. lia.
Qed.

Lemma chain_rule_turn lines i line r :
  lines !! i = Some line -> is_direct line = false ->
  turn lines i r (chain_rule lines i line r).
Proof.
  intros Hl Hd. pose proof (lookup_lt_Some _ _ _ Hl) as Hi.
  unfold chain_rule, chain_scan.
  pose proof (lookahead_loop_cursor (drop (i + 1) lines) (i + 1) [line] i) as Hc.
  cbv zeta in Hc. rewrite length_drop in Hc.
  destruct (has_debug (lookahead_loop (drop (i + 1) lines) (i + 1) [line] i)).
  - destruct Hc as [-> | [_ Hc]]; [apply turn_stuck | apply turn_drop; lia].
  - apply turn_keep; assumption.
Qed.

Lemma body_turn lines i r :
  i < length lines -> turn lines i r (body lines (i, r)).
Proof.
  intros Hi. destruct (lookup_lt_is_Some_2 lines i Hi) as [line Hl].
  rewrite (body_lookup _ _ _ _ Hl).
  destruct (is_direct line) eqn:Hd; [apply direct_rule_turn; assumption|].
  destruct (is_candidate line); [apply chain_rule_turn; assumption|].
  apply turn_keep; assumption.
Qed.

(** ** The outer loop and its fuel *)

Lemma loop_stuck lines st :
  st.1 < length lines -> body lines st = st ->
  forall fuel, loop fuel lines st = None.
Proof.
  intros Hi Hb fuel. induction fuel as [|fuel IH]; cbn [loop]; [reflexivity|].
  destruct (Nat.ltb_spec st.1 (length lines)); [|lia].
  rewrite Hb. exact IH.
Qed.

Lemma loop_mono fuel fuel' lines st out :
  loop fuel lines st = Some out -> fuel <= fuel' ->
  loop fuel' lines st = Some out.
Proof.
  revert st fuel'. induction fuel as [|fuel IH]; intros st fuel'; cbn [loop fst snd];
    [discriminate|].
  intros H Hle. destruct fuel' as [|fuel']; [lia|]. cbn [loop].
  destruct (st.1 <? length lines); [|assumption].
  apply IH; [assumption | lia].
Qed.

Lemma run_done lines st : length lines <= st.1 -> run lines st = Some st.2.
Proof.
  intros H. unfold run. rewrite Nat.add_1_r. cbn [loop fst snd].
  destruct (Nat.ltb_spec st.1 (length lines)); [lia | reflexivity].
Qed.

(** A result reached with any fuel is reached with the fuel of [run]. *)
Lemma loop_enough fuel lines st out :
  loop fuel lines st = Some out -> run lines st = Some out.
Proof.
  revert st. induction fuel as [|fuel IH]; intros [i r]; cbn [loop fst snd]; [discriminate|].
  destruct (Nat.ltb_spec i (length lines)) as [Hi|Hi].
  - intros H. pose proof (body_turn lines i r Hi) as Ht.
    assert (Hstep : i < (body lines (i, r)).1 -> run lines (i, r) = Some out).
    { intros Hlt. apply IH in H.
      unfold run in *. cbn [fst]. rewrite Nat.add_1_r. cbn [loop fst snd].
      destruct (Nat.ltb_spec i (length lines)); [|lia].
      eapply loop_mono; [exact H | lia]. }
    remember (body lines (i, r)) as st' eqn:Hb.
    destruct Ht as [ | i' Hi' | line Hl Hd].
    + symmetry in Hb.
      rewrite (loop_stuck lines (i, r) Hi Hb) in H. discriminate.
    + apply Hstep. simpl. lia.
    + apply Hstep. simpl. lia.
  - intros H. rewrite run_done by (simpl; lia). exact H.
Qed.

Lemma loop_run fuel lines st :
  length lines - st.1 + 1 <= fuel -> loop fuel lines st = run lines st.
Proof.
  intros Hf. destruct (loop fuel lines st) as [out|] eqn:E.
  - symmetry. eapply loop_enough; exact E.
  - destruct (run lines st) as [out|] eqn:E'; [|reflexivity].
    unfold run in E'. rewrite (loop_mono _ fuel _ _ _ E' Hf) in E. discriminate.
Qed.

(** [run] follows the loop turn by turn. *)
Lemma run_unfold lines st :
  st.1 < length lines -> run lines st = run lines (body lines st).
Proof.
  intros Hi. destruct st as [i r]. simpl in Hi.
  pose proof (body_turn lines i r Hi) as Ht.
  assert (Hstep : i < (body lines (i, r)).1 ->
                  run lines (i, r) = run lines (body lines (i, r))).
  { intros Hlt. unfold run at 1. cbn [fst]. rewrite Nat.add_1_r.
    cbn [loop fst snd].
    destruct (Nat.ltb_spec i (length lines)); [|lia].
    apply loop_run. lia. }
  remember (body lines (i, r)) as st' eqn:Hb.
  destruct Ht as [ | i' Hi' | line Hl Hd];
    [reflexivity | apply Hstep; simpl; lia ..].
Qed.

Lemma run_body lines st st' :
  st.1 < length lines -> body lines st = st' -> run lines st = run lines st'.
Proof. intros Hi <-. apply run_unfold, Hi. Qed.

Lemma remove_debug_lines_run lines :
  remove_debug_lines lines = run lines (0, []).
Proof. unfold remove_debug_lines, run. simpl. rewrite Nat.sub_0_r. reflexivity. Qed.

(** [None] is the loop that never ends, and [Some out] the loop that ends
    with [out], whatever the fuel. *)
Lemma remove_debug_lines_None lines :
  remove_debug_lines lines = None <->
  forall fuel, loop fuel lines (0, []) = None.
Proof.
  split.
  - intros H fuel. destruct (loop fuel lines (0, [])) as [out|] eqn:E;
      [|reflexivity].
    apply loop_enough in E. rewrite <- remove_debug_lines_run in E. congruence.
  - intros H. apply H.
Qed.

Lemma remove_debug_lines_Some lines out :
  remove_debug_lines lines = Some out <->
  exists fuel, loop fuel lines (0, []) = Some out.
Proof.
  split.
  - intros H. eexists. exact H.
  - intros [fuel H]. rewrite remove_debug_lines_run. eapply loop_enough, H.
Qed.

(** A property of the state kept by every turn holds when the loop ends. *)
Lemma run_invariant (P : state -> Prop) lines :
  (forall st, st.1 < length lines -> P st -> P (body lines st)) ->
  forall st out, P st -> run lines st = Some out ->
  exists i, length lines <= i /\ P (i, out).
Proof.
  intros Hbody st out HP. unfold run.
  generalize (length lines - st.1 + 1) as fuel. intros fuel. revert st HP.
  induction fuel as [|fuel IH]; intros [i r] HP; cbn [loop fst snd]; [discriminate|].
  destruct (Nat.ltb_spec i (length lines)) as [Hi|Hi].
  - apply IH, Hbody; assumption.
  - intros [= <-]. eauto.
Qed.

(** ** A turn, with the input cut at the cursor *)

Lemma drop_past pre (line : pystr) rest :
  drop (length pre + 1) (pre ++ line :: rest) = rest.
Proof.
  replace (pre ++ line :: rest) with ((pre ++ [line]) ++ rest)
    by (rewrite <- app_assoc; reflexivity).
  replace (length pre + 1) with (length (pre ++ [line]))
    by (rewrite length_app; reflexivity).
  apply drop_app_length.
Qed.

Lemma body_at pre line rest r :
  body (pre ++ line :: rest) (length pre, r) =
    if is_direct line then
      if closes_call line then (length pre + 1, r)
      else (skip_past_close rest (length pre + 1), r)
    else if is_candidate line then
      let s := lookahead_loop rest (length pre + 1) [line] (length pre) in
      if has_debug s then (cursor s, r) else (length pre + 1, r ++ [line])
    else (length pre + 1, r ++ [line]).
Proof.
  rewrite (body_lookup _ _ line) by (apply list_lookup_middle; reflexivity).
  unfold direct_rule, chain_rule, chain_scan. rewrite drop_past. reflexivity.
Qed.

Lemma run_at pre line rest r :
  run (pre ++ line :: rest) (length pre, r) =
  run (pre ++ line :: rest) (body (pre ++ line :: rest) (length pre, r)).
Proof.
  apply run_unfold. simpl. rewrite length_app. simpl. lia.
Qed.

(** ** Properties kept by every turn *)

Lemma not_direct_comment l :
  is_direct l = false -> has_debug_marker l = true -> is_comment l = true.
Proof.
  unfold is_direct. intros H Hm. rewrite Hm in H.
  destruct (is_comment l); [reflexivity | discriminate].
Qed.

Lemma emitted_ok_init lines : emitted_ok lines (0, []).
Proof. split; [apply sublist_nil_l | constructor]. Qed.

Lemma emitted_ok_body lines st :
  st.1 < length lines -> emitted_ok lines st -> emitted_ok lines (body lines st).
Proof.
  destruct st as [i r]. intros Hi [Hsub Hnd]. simpl in Hi, Hsub, Hnd.
  pose proof (body_turn lines i r Hi) as Ht.
  remember (body lines (i, r)) as st' eqn:Hb.
  destruct Ht as [ | i' Hi' | line Hl Hd]; split; simpl; try assumption.
  - rewrite <- (take_drop i (take i' lines)), take_take, Nat.min_l by lia.
    apply sublist_inserts_r. assumption.
  - rewrite Nat.add_1_r, (take_S_r _ _ _ Hl).
    apply sublist_app; [assumption | reflexivity].
  - apply Forall_app. split; [assumption|]. repeat constructor. assumption.
Qed.

Lemma emitted_ok_after_turns lines n : emitted_ok lines (after_turns n lines).
Proof.
  induction n as [|n IH]; [apply emitted_ok_init|].
  unfold after_turns in *. simpl. unfold step at 1.
  destruct (Nat.ltb_spec (Nat.iter n (step lines) (0, [])).1 (length lines));
    [apply emitted_ok_body|]; assumption.
Qed.

Lemma emitted_ok_result lines out :
  remove_debug_lines lines = Some out ->
  out `sublist_of` lines /\ Forall (fun l => is_direct l = false) out.
Proof.
  rewrite remove_debug_lines_run. intros H.
  destruct (run_invariant (emitted_ok lines) lines (emitted_ok_body lines)
              _ _ (emitted_ok_init lines) H) as (i & Hi & Hsub & Hnd).
  simpl in Hsub, Hnd. rewrite take_ge in Hsub by assumption. auto.
Qed.

(** ** Input without the marker *)

Lemma body_marker_free lines i line r :
  Forall (fun l => has_debug_marker l = false) lines ->
  lines !! i = Some line ->
  body lines (i, r) = (i + 1, r ++ [line]).
Proof.
  intros Hfree Hl. rewrite (body_lookup _ _ _ _ Hl).
  unfold is_direct. rewrite (proj1 (Forall_lookup _ _) Hfree _ _ Hl). simpl.
  destruct (is_candidate line); [|reflexivity].
  unfold chain_rule, chain_scan.
  rewrite lookahead_loop_no_marker by (apply Forall_drop; assumption).
  reflexivity.
Qed.

Lemma run_marker_free lines :
  Forall (fun l => has_debug_marker l = false) lines ->
  forall k i r, length lines - i = k -> i <= length lines ->
  run lines (i, r) = Some (r ++ drop i lines).
Proof.
  intros Hfree k. induction k as [|k IH]; intros i r Hk Hi.
  - rewrite run_done by (simpl; lia). rewrite drop_ge by lia.
    rewrite app_nil_r. reflexivity.
  - destruct (lookup_lt_is_Some_2 lines i) as [line Hl]; [lia|].
    rewrite run_unfold by (simpl; lia).
    rewrite (body_marker_free _ _ _ _ Hfree Hl).
    rewrite IH by lia. rewrite (drop_S _ _ _ Hl), Nat.add_1_r, <- app_assoc.
    reflexivity.
Qed.

(** ** The lookahead, by the shape of the lines ahead *)

Lemma chain_scan_match conts d rest j line i :
  Forall (fun l => is_continuation l = true) conts ->
  has_debug_marker d = true ->
  lookahead_loop (conts ++ d :: rest) j [line] i =
    Scan (line :: conts ++ [d]) true
      (if closes_call d then j + length conts + 1
       else find_close rest (j + length conts + 1) i).
Proof.
  intros Hc Hd. rewrite lookahead_loop_continuations by assumption.
  rewrite lookahead_loop_cons, Hd. reflexivity.
Qed.

Lemma chain_scan_stop conts t rest j line i :
  Forall (fun l => is_continuation l = true) conts ->
  has_debug_marker t = false -> is_continuation t = false ->
  lookahead_loop (conts ++ t :: rest) j [line] i =
    Scan (line :: conts ++ [t]) false i.
Proof.
  intros Hc Hm Ht. rewrite lookahead_loop_continuations by assumption.
  rewrite lookahead_loop_cons, Hm, Ht. reflexivity.
Qed.

Lemma chain_scan_end conts j line i :
  Forall (fun l => is_continuation l = true) conts ->
  lookahead_loop conts j [line] i = Scan (line :: conts) false i.
Proof.
  intros Hc. rewrite <- (app_nil_r conts) at 1.
  rewrite lookahead_loop_continuations by assumption. reflexivity.
Qed.

(** A lone ['})'] without the marker is not a continuation line. *)
Lemma brace_paren_not_continuation t :
  str_eqb (strip t) close_brace_paren = true -> is_continuation t = false.
Proof.
  intros H%str_eqb_eq. unfold is_continuation. rewrite H.
  exact (andb_false_r _).
Qed.

(** ** The chain rule, by the shape of the lines after the candidate *)

Lemma body_chain_at pre line rest r :
  is_direct line = false -> is_candidate line = true ->
  body (pre ++ line :: rest) (length pre, r) =
    let s := lookahead_loop rest (length pre + 1) [line] (length pre) in
    if has_debug s then (cursor s, r) else (length pre + 1, r ++ [line]).
Proof. intros Hd Hc. rewrite body_at, Hd, Hc. reflexivity. Qed.

Section ChainShape.

(** The cursor is on [line], a chain candidate that follows [pre]; the
    lines [conts] after it are continuation lines; [r] has been emitted. *)
Variables (pre : list pystr) (line : pystr) (conts : list pystr).
Variable r : list pystr.
Hypothesis Hdirect : is_direct line = false.
Hypothesis Hcandidate : is_candidate line = true.
Hypothesis Hconts : Forall (fun l => is_continuation l = true) conts.

Lemma body_chain_closed_here d rest :
  has_debug_marker d = true -> closes_call d = true ->
  body (pre ++ line :: conts ++ d :: rest) (length pre, r) =
    (length (pre ++ line :: conts ++ [d]), r).
Proof.
  intros Hm Hcl. rewrite body_chain_at by assumption.
  rewrite chain_scan_match by assumption. cbv zeta. cbn [has_debug cursor].
  rewrite Hcl. f_equal. list_len.
Qed.

Lemma body_chain_closed_later d mid c tail :
  has_debug_marker d = true -> closes_call d = false ->
  Forall (fun l => closes_call l = false) mid -> closes_call c = true ->
  body (pre ++ line :: conts ++ d :: mid ++ c :: tail) (length pre, r) =
    (length (pre ++ line :: conts ++ d :: mid ++ [c]), r).
Proof.
  intros Hm Hcl Hmid Hcc. rewrite body_chain_at by assumption.
  rewrite chain_scan_match by assumption. cbv zeta. cbn [has_debug cursor].
  rewrite Hcl, find_close_first by assumption. f_equal. list_len.
Qed.

(** The defect behind C1: a chain whose debug call is never closed leaves
    the state of the outer loop as it was, and the loop never ends. *)
Lemma body_chain_unclosed d rest :
  has_debug_marker d = true -> closes_call d = false ->
  Forall (fun l => closes_call l = false) rest ->
  body (pre ++ line :: conts ++ d :: rest) (length pre, r) = (length pre, r).
Proof.
  intros Hm Hcl Hrest. rewrite body_chain_at by assumption.
  rewrite chain_scan_match by assumption. cbv zeta. cbn [has_debug cursor].
  rewrite Hcl, find_close_none by assumption. reflexivity.
Qed.

Lemma loop_chain_unclosed d rest :
  has_debug_marker d = true -> closes_call d = false ->
  Forall (fun l => closes_call l = false) rest ->
  forall fuel,
    loop fuel (pre ++ line :: conts ++ d :: rest) (length pre, r) = None.
Proof.
  intros. apply loop_stuck.
  - simpl. list_len.
  - apply body_chain_unclosed; assumption.
Qed.

Lemma body_chain_stop t rest :
  has_debug_marker t = false -> is_continuation t = false ->
  body (pre ++ line :: conts ++ t :: rest) (length pre, r) =
    (length pre + 1, r ++ [line]).
Proof.
  intros Hm Ht. rewrite body_chain_at by assumption.
  rewrite chain_scan_stop by assumption. reflexivity.
Qed.

(** Fail-open at the end of the input. *)
Lemma body_chain_end :
  body (pre ++ line :: conts) (length pre, r) = (length pre + 1, r ++ [line]).
Proof.
  rewrite body_chain_at by assumption.
  rewrite chain_scan_end by assumption. reflexivity.
Qed.

End ChainShape.

(** ** Where the loop ends *)

Lemma find_close_found ahead j i :
  Exists (fun l => closes_call l = true) ahead -> j < find_close ahead j i.
Proof.
  revert j. induction ahead as [|l ahead IH]; intros j H; [inversion H|].
  simpl. destruct (closes_call l) eqn:E; [lia|].
  apply Exists_cons in H as [H|H]; [congruence|].
  specialize (IH (j + 1) H). lia.
Qed.

Lemma calls_closed_drop lines n : calls_closed lines -> calls_closed (drop n lines).
Proof.
  intros H j d Hj Hm Hcl. rewrite lookup_drop in Hj.
  destruct (H _ _ Hj Hm Hcl) as (k & c & Hk & Hc & Hcc).
  exists (k - n), c. split; [lia|]. rewrite lookup_drop.
  replace (n + (k - n)) with k by lia. auto.
Qed.

Lemma lookahead_loop_advances ahead j buf i :
  calls_closed ahead ->
  has_debug (lookahead_loop ahead j buf i) = true ->
  j < cursor (lookahead_loop ahead j buf i).
Proof.
  revert j buf. induction ahead as [|l ahead IH]; intros j buf Hcc;
    [discriminate|].
  rewrite lookahead_loop_cons. destruct (has_debug_marker l) eqn:Hm.
  - intros _. cbn [cursor]. destruct (closes_call l) eqn:Hcl; [lia|].
    destruct (Hcc 0 l eq_refl Hm Hcl) as (k & c & Hk & Hc & Hc').
    destruct k as [|k]; [lia|]. simpl in Hc.
    assert (j + 1 < find_close ahead (j + 1) i); [|lia].
    apply find_close_found, Exists_exists. exists c. split; [|assumption].
    eapply list_elem_of_lookup_2, Hc.
  - destruct (is_continuation l); [|discriminate].
    intros H. apply (calls_closed_drop _ 1) in Hcc.
    specialize (IH (j + 1) (buf ++ [l]) Hcc H). lia.
Qed.

Lemma body_advances lines i r :
  calls_closed lines -> i < length lines -> i < (body lines (i, r)).1.
Proof.
  intros Hcc Hi. destruct (lookup_lt_is_Some_2 lines i Hi) as [line Hl].
  rewrite (body_lookup _ _ _ _ Hl).
  destruct (is_direct line).
  - unfold direct_rule. destruct (closes_call line); simpl; [lia|].
    pose proof (skip_past_close_bounds (drop (i + 1) lines) (i + 1)). lia.
  - destruct (is_candidate line); [|simpl; lia].
    unfold chain_rule, chain_scan.
    pose proof (lookahead_loop_advances (drop (i + 1) lines) (i + 1) [line] i
                  (calls_closed_drop _ _ Hcc)) as Ha.
    destruct (has_debug (lookahead_loop (drop (i + 1) lines) (i + 1) [line] i));
      simpl; [specialize (Ha eq_refl)|]; lia.
Qed.

Lemma run_returns lines :
  (forall i r, i < length lines -> i < (body lines (i, r)).1) ->
  forall k st, length lines - st.1 <= k -> exists out, run lines st = Some out.
Proof.
  intros Hadv k. induction k as [|k IH]; intros [i r] Hk; simpl in Hk.
  - rewrite run_done by (simpl; lia). eauto.
  - destruct (le_lt_dec (length lines) i) as [Hle|Hlt].
    + rewrite run_done by (simpl; lia). eauto.
    + rewrite run_unfold by (simpl; lia). apply IH.
      specialize (Hadv i r Hlt). lia.
Qed.

(** The transform returns on every input in which the debug calls that are
    opened are closed. *)
Lemma remove_debug_lines_returns lines :
  calls_closed lines -> exists out, remove_debug_lines lines = Some out.
Proof.
  intros Hcc. rewrite remove_debug_lines_run.
  apply (run_returns lines) with (k := length lines); [|simpl; lia].
  intros i r Hi. apply body_advances; assumption.
Qed.

(** ** Splitting a text into lines and joining it back *)

Lemma contains_infix m s :
  contains m s = true <-> exists a b, s = a ++ m ++ b.
Proof.
  induction s as [|c s IH]; simpl; rewrite orb_true_iff, startswith_prefix.
  - split.
    + intros [[t Ht]|?]; [|discriminate]. exists [], t. exact Ht.
    + intros (a & b & H). left. destruct a; [|discriminate]. eauto.
  - rewrite IH. split.
    + intros [[t Ht]|(a & b & ->)]; [exists [], t; exact Ht|].
      exists (c :: a), b. reflexivity.
    + intros (a & b & H). destruct a as [|c' a]; [left; eauto|].
      right. injection H as _ ->. eauto.
Qed.

Lemma split_lines_head c :
  exists l ls b, split_lines c = l :: ls /\ c = l ++ b.
Proof.
  induction c as [|x c (l & ls & b & Hs & Hc)]; simpl.
  - exists [], [], []. auto.
  - destruct (N.eqb x newline).
    + exists [], (split_lines c), (x :: c). auto.
    + rewrite Hs. exists (x :: l), ls, b. rewrite Hc at 1. auto.
Qed.

Lemma split_lines_infix c l :
  l ∈ split_lines c -> exists a b, c = a ++ l ++ b.
Proof.
  revert l. induction c as [|x c IH]; intros l; simpl.
  - intros ->%list_elem_of_singleton. exists [], []. reflexivity.
  - destruct (N.eqb x newline).
    + intros [->|Hl]%elem_of_cons.
      * exists [], (x :: c). reflexivity.
      * destruct (IH _ Hl) as (a & b & ->). exists (x :: a), b. reflexivity.
    + destruct (split_lines_head c) as (l0 & ls & b0 & Hs & Hc).
      rewrite Hs in IH |- *. intros [->|Hl]%elem_of_cons.
      * exists [], b0. rewrite Hc at 1. reflexivity.
      * destruct (IH l) as (a & b & ->); [apply elem_of_cons; auto|].
        exists (x :: a), b. reflexivity.
Qed.

Lemma join_split_lines c : join_lines (split_lines c) = c.
Proof.
  induction c as [|x c IH]; [reflexivity|].
  destruct (split_lines_head c) as (l0 & ls & b0 & Hs & _).
  simpl. destruct (N.eqb_spec x newline) as [->|_].
  - rewrite Hs in IH |- *. rewrite <- IH. reflexivity.
  - rewrite Hs in IH |- *. rewrite <- IH. destruct ls; reflexivity.
Qed.

Lemma split_lines_marker_free m c :
  contains m c = false ->
  Forall (fun l => contains m l = false) (split_lines c).
Proof.
  intros Hc. apply Forall_forall. intros l Hl.
  destruct (contains m l) eqn:Hm; [|reflexivity].
  apply contains_infix in Hm as (a & b & ->).
  apply split_lines_infix in Hl as (a' & b' & ->).
  assert (contains m (a' ++ (a ++ m ++ b) ++ b') = true) as Hin; [|congruence].
  apply contains_infix. exists (a' ++ a), (b ++ b').
  rewrite <- !app_assoc. reflexivity.
Qed.

(** * The claims *)

(** C1 (the code departs from it).  The claim is that [remove_debug_logs]
    returns on every input.  On the text ['x.WithField("k", v).\ny.Debug(']
    it does not: the lookahead finds the marker on the second line, finds
    no closing line after it and leaves the cursor unassigned, so a turn of
    the outer loop maps the initial state to itself and the loop never
    ends, whatever the number of turns allowed. *)
Theorem unterminated_chain_never_returns :
  split_lines unterminated_content = unterminated_chain /\
  body unterminated_chain (0, []) = (0, []) /\
  (forall fuel, loop fuel unterminated_chain (0, []) = None) /\
  remove_debug_lines unterminated_chain = None /\
  remove_debug_logs unterminated_content = None.
Proof.
  assert (Hb : body unterminated_chain (0, []) = (0, [])) by reflexivity.
  repeat split; try reflexivity.
  apply loop_stuck; [simpl; lia | exact Hb].
Qed.

(** C2, as the code has it.  A chain is removed from the candidate line
    through the end of the debug call when the lookahead reaches a line that
    contains the marker ['.Debug('] and that line, or a later one, ends with
    a closing parenthesis: the turn emits nothing and leaves the cursor just
    past the first such closing line, from where the run goes on.  The
    sample of the specification is returned unchanged, because its
    continuation line ['  Debug("msg")'] does not contain the marker (the
    dot is on the line before); with the dot moved to the continuation line
    the result is ["a"; "b"]. *)
Theorem chain_with_marker_removed :
  (forall pre line conts d r,
     is_direct line = false -> is_candidate line = true ->
     Forall (fun l => is_continuation l = true) conts ->
     has_debug_marker d = true ->
     (closes_call d = true -> forall rest,
        body (pre ++ line :: conts ++ d :: rest) (length pre, r) =
          (length (pre ++ line :: conts ++ [d]), r)
        /\ run (pre ++ line :: conts ++ d :: rest) (length pre, r) =
           run (pre ++ line :: conts ++ d :: rest)
             (length (pre ++ line :: conts ++ [d]), r))
     /\ (closes_call d = false -> forall mid c tail,
        Forall (fun l => closes_call l = false) mid -> closes_call c = true ->
        body (pre ++ line :: conts ++ d :: mid ++ c :: tail) (length pre, r) =
          (length (pre ++ line :: conts ++ d :: mid ++ [c]), r)
        /\ run (pre ++ line :: conts ++ d :: mid ++ c :: tail) (length pre, r) =
           run (pre ++ line :: conts ++ d :: mid ++ c :: tail)
             (length (pre ++ line :: conts ++ d :: mid ++ [c]), r)))
  /\ remove_debug_lines chain_dot_debug_sample = Some [line_a; line_b]
  /\ has_debug_marker cont_debug = false
  /\ remove_debug_lines chain_debug_sample = Some chain_debug_sample.
Proof.
  split; [|repeat split; reflexivity].
  intros pre line conts d r Hd Hc Hconts Hm. split.
  - intros Hcl rest.
    pose proof (body_chain_closed_here pre line conts r Hd Hc Hconts d rest
                  Hm Hcl) as Hb.
    split; [exact Hb|]. apply run_body; [simpl; list_len | exact Hb].
  - intros Hcl mid c tail Hmid Hcc.
    pose proof (body_chain_closed_later pre line conts r Hd Hc Hconts d mid c
                  tail Hm Hcl Hmid Hcc) as Hb.
    split; [exact Hb|]. apply run_body; [simpl; list_len | exact Hb].
Qed.

Lemma chain_with_marker_removed_witness :
  body chain_dot_debug_sample (1, [line_a]) = (3, [line_a]).
Proof.
  refine (proj1 (proj1 (proj1 chain_with_marker_removed [line_a] with_field []
                          cont_dot_debug [line_a] _ _ _ _) _ [line_b]));
    try reflexivity.
  constructor.
Defined.

(** The sample of claim C2 is not reduced to ["a"; "b"]: all four lines are
    kept. *)
Lemma chain_debug_sample_kept :
  remove_debug_lines [line_a; with_field_dot; cont_debug; line_b] =
    Some [line_a; with_field_dot; cont_debug; line_b]
  /\ remove_debug_lines [line_a; with_field_dot; cont_debug; line_b] <>
    Some [line_a; line_b].
Proof. split; [reflexivity | discriminate]. Qed.

(** C3, as the code has it.  When a pass returns, every line of its output
    that still contains the marker is a comment line; and when no comment
    line of the input contains the marker, the output contains no marker at
    all and a second pass returns it unchanged. *)
Theorem second_pass_identity lines out :
  remove_debug_lines lines = Some out ->
  Forall (fun l => has_debug_marker l = true -> is_comment l = true) out
  /\ (Forall (fun l => is_comment l = true -> has_debug_marker l = false) lines ->
      Forall (fun l => has_debug_marker l = false) out
      /\ remove_debug_lines out = Some out).
Proof.
  intros H. destruct (emitted_ok_result _ _ H) as [Hsub Hnd].
  assert (Hkept : Forall (fun l => has_debug_marker l = true -> is_comment l = true) out).
  { eapply Forall_impl; [exact Hnd|]. intros l Hl. apply not_direct_comment, Hl. }
  split; [exact Hkept|].
  intros Hin.
  assert (Hfree : Forall (fun l => has_debug_marker l = false) out).
  { apply Forall_forall. intros l Hl.
    pose proof (proj1 (Forall_forall _ _) Hkept l Hl) as Hk.
    pose proof (proj1 (Forall_forall _ _) Hin l (elem_of_sublist _ _ _ Hl Hsub)) as Hi.
    destruct (has_debug_marker l) eqn:E; [|reflexivity].
    pose proof (Hi (Hk E)). congruence. }
  split; [exact Hfree|].
  rewrite remove_debug_lines_run.
  rewrite (run_marker_free out Hfree (length out) 0 []) by lia. reflexivity.
Qed.

Lemma second_pass_identity_witness :
  remove_debug_lines [line_a; line_b] = Some [line_a; line_b].
Proof.
  refine (proj2 (proj2 (second_pass_identity chain_dot_debug_sample
                          [line_a; line_b] _) _)).
  - reflexivity.
  - repeat constructor; discriminate.
Defined.

(** A second pass that changes the output of the first: the commented-out
    debug call survives the first pass, which removes the chain in front of
    it, and is then taken by the lookahead of the opener left before it. *)
Lemma second_pass_differs :
  remove_debug_lines two_pass_sample = Some [with_field; comment_debug]
  /\ remove_debug_lines [with_field; comment_debug] = Some []
  /\ remove_debug_lines [with_field; comment_debug] <>
       Some [with_field; comment_debug]
  /\ has_debug_marker comment_debug = true.
Proof. repeat split; try reflexivity. discriminate. Qed.

(** C4.  Chain resolving to non-debug: the sample is returned unchanged; and
    a lookahead that ends without a match, in particular one stopped by a
    line that has no marker and is not a continuation line, keeps the
    candidate line and leaves the cursor on the line after it, so that the
    run goes on from there with nothing removed. *)
Theorem chain_non_debug_preserved :
  remove_debug_lines chain_info_sample = Some chain_info_sample
  /\ (forall lines i line r,
       lines !! i = Some line ->
       is_direct line = false -> is_candidate line = true ->
       has_debug (chain_scan lines i line) = false ->
       body lines (i, r) = (i + 1, r ++ [line])
       /\ run lines (i, r) = run lines (i + 1, r ++ [line]))
  /\ (forall pre line conts t rest r,
       is_direct line = false -> is_candidate line = true ->
       Forall (fun l => is_continuation l = true) conts ->
       has_debug_marker t = false -> is_continuation t = false ->
       body (pre ++ line :: conts ++ t :: rest) (length pre, r) =
         (length pre + 1, r ++ [line])).
Proof.
  split; [reflexivity|]. split.
  - intros lines i line r Hl Hd Hc Hs.
    assert (Hb : body lines (i, r) = (i + 1, r ++ [line])).
    { rewrite (body_lookup _ _ _ _ Hl), Hd, Hc. unfold chain_rule.
      rewrite Hs. reflexivity. }
    split; [exact Hb|]. rewrite <- Hb. apply run_unfold.
    simpl. eapply lookup_lt_Some, Hl.
  - intros. apply body_chain_stop; assumption.
Qed.

Lemma chain_non_debug_preserved_witness :
  body chain_info_sample (1, [line_a]) = (2, [line_a; with_field_dot]).
Proof.
  refine (proj2 (proj2 chain_non_debug_preserved) [line_a] with_field_dot []
            cont_info [line_b] [line_a] _ _ _ _ _);
    try reflexivity.
  constructor.
Defined.

(** C5, as the code has it.  During chain lookahead a line that is purely
    the token ['})'] and does not contain the marker ends the lookahead as a
    non-match: it is the last line taken into the buffer, whatever follows
    it, the candidate line is kept and the cursor moves to the line after
    the candidate. *)
Theorem closing_token_ends_lookahead pre line conts t rest r :
  is_direct line = false -> is_candidate line = true ->
  Forall (fun l => is_continuation l = true) conts ->
  str_eqb (strip t) close_brace_paren = true -> has_debug_marker t = false ->
  chain_scan (pre ++ line :: conts ++ t :: rest) (length pre) line =
    Scan (line :: conts ++ [t]) false (length pre)
  /\ body (pre ++ line :: conts ++ t :: rest) (length pre, r) =
       (length pre + 1, r ++ [line]).
Proof.
  intros Hd Hc Hconts Ht Hm.
  pose proof (brace_paren_not_continuation t Ht) as Hn. split.
  - unfold chain_scan. rewrite drop_past. apply chain_scan_stop; assumption.
  - apply body_chain_stop; assumption.
Qed.

Lemma closing_token_ends_lookahead_witness :
  chain_scan closing_token_sample 0 with_field =
    Scan [with_field; brace_paren] false 0
  /\ body closing_token_sample (0, []) = (1, [with_field]).
Proof.
  refine (closing_token_ends_lookahead [] with_field [] brace_paren [z_debug]
            [] _ _ _ _ _);
    try reflexivity.
  constructor.
Defined.

(** The scan does not go past a lone ['})']: the debug call on the next line
    is not seen, the buffer ends at the token, and the opener and the token
    are kept. *)
Lemma closing_token_not_passed :
  str_eqb (strip brace_paren) close_brace_paren = true
  /\ has_debug_marker brace_paren = false
  /\ lookahead_loop [brace_paren; z_debug] 1 [with_field] 0 <>
       lookahead_loop [z_debug] 2 [with_field; brace_paren] 0
  /\ lookahead (chain_scan closing_token_sample 0 with_field) =
       [with_field; brace_paren]
  /\ remove_debug_lines closing_token_sample = Some [with_field; brace_paren].
Proof. repeat split; try reflexivity. discriminate. Qed.

(** C6.  No-marker identity: on a sequence of lines none of which contains
    the debug-call marker the transform returns the sequence itself, and on
    a text without the marker [remove_debug_logs] returns the text itself. *)
Theorem no_marker_identity :
  (forall lines,
     Forall (fun l => has_debug_marker l = false) lines ->
     remove_debug_lines lines = Some lines)
  /\ (forall content,
       contains debug_marker content = false ->
       remove_debug_logs content = Some content).
Proof.
  assert (Hlines : forall lines,
            Forall (fun l => has_debug_marker l = false) lines ->
            remove_debug_lines lines = Some lines).
  { intros lines H. rewrite remove_debug_lines_run.
    rewrite (run_marker_free lines H (length lines) 0 []) by lia. reflexivity. }
  split; [exact Hlines|].
  intros content H. unfold remove_debug_logs.
  rewrite Hlines by (apply split_lines_marker_free; exact H).
  simpl. rewrite join_split_lines. reflexivity.
Qed.

Lemma no_marker_identity_witness :
  remove_debug_lines chain_info_sample = Some chain_info_sample
  /\ remove_debug_logs with_field_dot = Some with_field_dot.
Proof.
  split.
  - apply (proj1 no_marker_identity). repeat constructor.
  - apply (proj2 no_marker_identity). reflexivity.
Defined.

(** C7.  Direct removal extent: with the cursor on a line that contains the
    debug-call marker and is not a comment line, a turn emits nothing and
    moves the cursor past that line alone when the line, without its
    trailing whitespace, ends with a closing parenthesis; otherwise past the
    first later line that ends with one; the run goes on from there.  When
    there is no such line the cursor moves to the end of the input, so that
    the run ends with what had been emitted before.  The multi-line sample of the specification gives ["a"; "b"]. *)
Theorem direct_removal_extent :
  (forall pre line r,
     has_debug_marker line = true -> is_comment line = false ->
     (closes_call line = true -> forall rest,
        body (pre ++ line :: rest) (length pre, r) =
          (length (pre ++ [line]), r)
        /\ run (pre ++ line :: rest) (length pre, r) =
           run (pre ++ line :: rest) (length (pre ++ [line]), r))
     /\ (closes_call line = false -> forall mid c tail,
        Forall (fun l => closes_call l = false) mid -> closes_call c = true ->
        body (pre ++ line :: mid ++ c :: tail) (length pre, r) =
          (length (pre ++ line :: mid ++ [c]), r)
        /\ run (pre ++ line :: mid ++ c :: tail) (length pre, r) =
           run (pre ++ line :: mid ++ c :: tail)
             (length (pre ++ line :: mid ++ [c]), r))
     /\ (closes_call line = false -> forall rest,
        Forall (fun l => closes_call l = false) rest ->
        body (pre ++ line :: rest) (length pre, r) =
          (length (pre ++ line :: rest), r)
        /\ run (pre ++ line :: rest) (length pre, r) = Some r))
  /\ remove_debug_lines [line_a; debug_x; line_b] = Some [line_a; line_b]
  /\ remove_debug_lines [line_a; debug_open; arg_x; lone_paren; line_b] =
       Some [line_a; line_b].
Proof.
  split; [|split; reflexivity].
  intros pre line r Hm Hc.
  assert (Hd : is_direct line = true)
    by (unfold is_direct; rewrite Hm, Hc; reflexivity).
  split; [|split].
  - intros Hcl rest.
    assert (Hb : body (pre ++ line :: rest) (length pre, r) =
                 (length (pre ++ [line]), r)).
    { rewrite body_at, Hd, Hcl. f_equal. list_len. }
    split; [exact Hb|]. apply run_body; [simpl; list_len | exact Hb].
  - intros Hcl mid c tail Hmid Hcc.
    assert (Hb : body (pre ++ line :: mid ++ c :: tail) (length pre, r) =
                 (length (pre ++ line :: mid ++ [c]), r)).
    { rewrite body_at, Hd, Hcl.
      rewrite skip_past_close_first by assumption. f_equal. list_len. }
    split; [exact Hb|]. apply run_body; [simpl; list_len | exact Hb].
  - intros Hcl rest Hrest.
    assert (Hb : body (pre ++ line :: rest) (length pre, r) =
                 (length (pre ++ line :: rest), r)).
    { rewrite body_at, Hd, Hcl. rewrite skip_past_close_none by assumption.
      f_equal. list_len. }
    split; [exact Hb|]. rewrite run_at, Hb. apply run_done. simpl. lia.
Qed.

Lemma direct_removal_extent_witness :
  body [line_a; debug_open; arg_x; lone_paren; line_b] (1, [line_a]) =
    (4, [line_a]).
Proof.
  refine (proj1 (proj1 (proj2 (proj1 direct_removal_extent [line_a] debug_open
                                 [line_a] _ _))
                   _ [arg_x] lone_paren [line_b] _ _));
    try reflexivity.
  repeat constructor.
Defined.

(** C8.  Subsequence invariant: after any number of turns of the loop what
    has been emitted is a subsequence of the input lines behind the cursor,
    each emitted line being the input line itself, in the order of the
    input; so the output, when the transform returns, is a subsequence of
    the input. *)
Theorem output_is_subsequence lines :
  (forall n,
     (after_turns n lines).2 `sublist_of` take (after_turns n lines).1 lines)
  /\ (forall out, remove_debug_lines lines = Some out -> out `sublist_of` lines).
Proof.
  split.
  - intros n. apply emitted_ok_after_turns.
  - intros out H. apply (emitted_ok_result _ _ H).
Qed.

Lemma output_is_subsequence_witness :
  [line_a; line_b] `sublist_of` chain_dot_debug_sample.
Proof.
  apply (proj2 (output_is_subsequence chain_dot_debug_sample)). reflexivity.
Defined.





(** * Further properties of [remove_debug_logs] *)

(** ** The lines behind the cursor play no part *)

Lemma skip_past_close_shift ahead k i :
  skip_past_close ahead (k + i) = k + skip_past_close ahead i.
Proof.
  revert i. induction ahead as [|l ahead IH]; intros i; simpl; [reflexivity|].
  destruct (closes_call l); [lia|].
  rewrite <- Nat.add_assoc. apply IH.
Qed.

Lemma find_close_shift ahead k j i :
  find_close ahead (k + j) (k + i) = k + find_close ahead j i.
Proof.
  revert j. induction ahead as [|l ahead IH]; intros j; simpl; [reflexivity|].
  destruct (closes_call l); [lia|].
  rewrite <- Nat.add_assoc. apply IH.
Qed.

Lemma lookahead_loop_shift ahead k j buf i :
  lookahead_loop ahead (k + j) buf (k + i) =
    let s := lookahead_loop ahead j buf i in
    Scan (lookahead s) (has_debug s) (k + cursor s).
Proof.
  revert j buf. induction ahead as [|l ahead IH]; intros j buf;
    [reflexivity|].
  rewrite !lookahead_loop_cons. destruct (has_debug_marker l).
  - cbv zeta. cbn [lookahead has_debug cursor]. f_equal.
    destruct (closes_call l); [lia|].
    rewrite <- Nat.add_assoc. apply find_close_shift.
  - destruct (is_continuation l); [|reflexivity].
    rewrite <- Nat.add_assoc. apply IH.
Qed.

Lemma body_shift pre rest i r :
  body (pre ++ rest) (length pre + i, r) =
    (length pre + (body rest (i, r)).1, (body rest (i, r)).2).
Proof.
  unfold body. rewrite lookup_app_r, Nat.add_sub' by lia.
  destruct (rest !! i) as [line|]; [|reflexivity].
  destruct (is_direct line).
  - unfold direct_rule. rewrite <- Nat.add_assoc, drop_app_add.
    destruct (closes_call line); [reflexivity|]. cbn [fst snd].
    rewrite skip_past_close_shift. reflexivity.
  - destruct (is_candidate line); [|cbn [fst snd]; f_equal; lia].
    unfold chain_rule, chain_scan.
    rewrite <- Nat.add_assoc, drop_app_add, lookahead_loop_shift.
    cbv zeta. cbn [has_debug cursor].
    destruct (has_debug (lookahead_loop (drop (i + 1) rest) (i + 1) [line] i));
      reflexivity.
Qed.

Lemma loop_shift fuel pre rest i r :
  loop fuel (pre ++ rest) (length pre + i, r) = loop fuel rest (i, r).
Proof.
  revert i r. induction fuel as [|fuel IH]; intros i r; [reflexivity|].
  cbn [loop fst snd]. rewrite length_app, body_shift.
  destruct (Nat.ltb_spec i (length rest)), 
    (Nat.ltb_spec (length pre + i) (length pre + length rest)); try lia;
    [|reflexivity].
  destruct (body rest (i, r)) as [i' r']. apply IH.
Qed.

(** What has been emitted before is carried along untouched. *)
Lemma body_emitted lines i r0 r :
  body lines (i, r0 ++ r) =
    ((body lines (i, r)).1, r0 ++ (body lines (i, r)).2).
Proof.
  unfold body. destruct (lines !! i) as [line|]; [|reflexivity].
  destruct (is_direct line).
  - unfold direct_rule. destruct (closes_call line); reflexivity.
  - destruct (is_candidate line); [|cbn [fst snd]; rewrite app_assoc; reflexivity].
    unfold chain_rule.
    destruct (has_debug (chain_scan lines i line)); cbn [fst snd];
      [reflexivity | rewrite app_assoc; reflexivity].
Qed.

Lemma loop_emitted fuel lines i r0 r :
  loop fuel lines (i, r0 ++ r) = (app r0) <$> loop fuel lines (i, r).
Proof.
  revert i r. induction fuel as [|fuel IH]; intros i r; [reflexivity|].
  cbn [loop fst snd]. destruct (i <? length lines); [|reflexivity].
  rewrite body_emitted. destruct (body lines (i, r)) as [i' r']. apply IH.
Qed.

Lemma run_suffix pre rest r :
  run (pre ++ rest) (length pre, r) = (app r) <$> remove_debug_lines rest.
Proof.
  rewrite remove_debug_lines_run. unfold run. cbn [fst].
  rewrite <- (Nat.add_0_r (length pre)) at 2. rewrite loop_shift.
  rewrite length_app, Nat.add_sub', Nat.sub_0_r.
  rewrite <- (app_nil_r r) at 1. apply loop_emitted.
Qed.

Lemma run_step lines st : run lines st = run lines (step lines st).
Proof.
  unfold step. destruct (Nat.ltb_spec st.1 (length lines));
    [apply run_unfold; assumption | reflexivity].
Qed.

Lemma run_after_turns lines n :
  remove_debug_lines lines = run lines (after_turns n lines).
Proof.
  rewrite remove_debug_lines_run. unfold after_turns.
  induction n as [|n IH]; [reflexivity|].
  rewrite IH, run_step. reflexivity.
Qed.

Lemma step_cursor_bound lines st :
  st.1 <= length lines ->
  st.1 <= (step lines st).1 <= length lines.
Proof.
  intros Hle. unfold step. destruct (Nat.ltb_spec st.1 (length lines)) as [Hi|Hi];
    [|lia].
  destruct st as [i r]. pose proof (body_turn lines i r Hi) as Ht.
  remember (body lines (i, r)) as st' eqn:Hb.
  destruct Ht; simpl in *; lia.
Qed.

Lemma after_turns_bound lines n : (after_turns n lines).1 <= length lines.
Proof.
  unfold after_turns. induction n as [|n IH]; simpl; [lia|].
  apply step_cursor_bound, IH.
Qed.

(** X1.  Wherever the loop stands, the outcome of the transform is what has
    been emitted so far followed by the outcome of the transform on the
    lines from the cursor on: the lines behind the cursor play no part any
    more, and a run never ends on the rest of the input exactly when it
    never ends on the whole. *)
Theorem outcome_from_cursor lines n :
  remove_debug_lines lines =
    (app (after_turns n lines).2)
      <$> remove_debug_lines (drop (after_turns n lines).1 lines).
Proof.
  rewrite (run_after_turns lines n).
  pose proof (after_turns_bound lines n) as Hle.
  destruct (after_turns n lines) as [i r]. cbn [fst snd] in *.
  rewrite <- (run_suffix (take i lines) (drop i lines) r).
  rewrite take_drop, length_take_le by assumption. reflexivity.
Qed.

Lemma body_head l rest r :
  body (l :: rest) (0, r) =
    if is_direct l then
      if closes_call l then (1, r) else (skip_past_close rest 1, r)
    else if is_candidate l then
      let s := lookahead_loop rest 1 [l] 0 in
      if has_debug s then (cursor s, r) else (1, r ++ [l])
    else (1, r ++ [l]).
Proof. exact (body_at [] l rest r). Qed.

(** One turn at the head of the input. *)
Lemma remove_debug_lines_head consumed rest e :
  consumed <> [] ->
  body (consumed ++ rest) (0, []) = (length consumed, e) ->
  remove_debug_lines (consumed ++ rest) = (app e) <$> remove_debug_lines rest.
Proof.
  intros Hne Hb. rewrite remove_debug_lines_run.
  rewrite run_unfold, Hb by (destruct consumed; [congruence | simpl; lia]).
  apply run_suffix.
Qed.

Lemma not_direct_candidate_marker line :
  is_direct line = false -> is_candidate line = true ->
  has_debug_marker line = false.
Proof.
  unfold is_direct, is_candidate. intros Hd Hc.
  destruct (is_comment line); [rewrite andb_false_r in Hc; discriminate|].
  destruct (has_debug_marker line); [discriminate | reflexivity].
Qed.

(** X2.  The transform, line by line from the head of the input.  A line
    that starts neither a direct statement nor a chain is kept and the rest
    is transformed on its own; a direct statement is dropped up to its
    closing line and the rest is transformed on its own, or everything is
    dropped when no closing line follows; a chain that resolves to a closed
    debug call is dropped likewise; a chain stopped by another line keeps
    its candidate line only, the lines after it being transformed as if
    they came first. *)
Theorem remove_debug_lines_unfold :
  (forall l rest,
     is_direct l = false -> is_candidate l = false ->
     remove_debug_lines (l :: rest) = (cons l) <$> remove_debug_lines rest)
  /\ (forall l rest,
       is_direct l = true -> closes_call l = true ->
       remove_debug_lines (l :: rest) = remove_debug_lines rest)
  /\ (forall l mid c tail,
       is_direct l = true -> closes_call l = false ->
       Forall (fun x => closes_call x = false) mid -> closes_call c = true ->
       remove_debug_lines (l :: mid ++ c :: tail) = remove_debug_lines tail)
  /\ (forall l rest,
       is_direct l = true -> closes_call l = false ->
       Forall (fun x => closes_call x = false) rest ->
       remove_debug_lines (l :: rest) = Some [])
  /\ (forall l conts d rest,
       is_direct l = false -> is_candidate l = true ->
       Forall (fun x => is_continuation x = true) conts ->
       has_debug_marker d = true -> closes_call d = true ->
       remove_debug_lines (l :: conts ++ d :: rest) = remove_debug_lines rest)
  /\ (forall l conts d mid c tail,
       is_direct l = false -> is_candidate l = true ->
       Forall (fun x => is_continuation x = true) conts ->
       has_debug_marker d = true -> closes_call d = false ->
       Forall (fun x => closes_call x = false) mid -> closes_call c = true ->
       remove_debug_lines (l :: conts ++ d :: mid ++ c :: tail) =
         remove_debug_lines tail)
  /\ (forall l conts t rest,
       is_direct l = false -> is_candidate l = true ->
       Forall (fun x => is_continuation x = true) conts ->
       has_debug_marker t = false -> is_continuation t = false ->
       remove_debug_lines (l :: conts ++ t :: rest) =
         (cons l) <$> remove_debug_lines (conts ++ t :: rest)).
Proof.
  assert (Hid : forall o : option (list pystr), app [] <$> o = o)
    by (intros [x|]; reflexivity).
  repeat split.
  - intros l rest Hd Hc.
    apply (remove_debug_lines_head [l] rest [l]); [discriminate|].
    cbn [app]. rewrite body_head, Hd, Hc. reflexivity.
  - intros l rest Hd Hcl. rewrite <- (Hid (remove_debug_lines rest)).
    apply (remove_debug_lines_head [l] rest []); [discriminate|].
    cbn [app]. rewrite body_head, Hd, Hcl. reflexivity.
  - intros l mid c tail Hd Hcl Hmid Hcc.
    rewrite <- (Hid (remove_debug_lines tail)).
    assert (E : l :: mid ++ c :: tail = (l :: mid ++ [c]) ++ tail)
      by (cbn [app]; rewrite <- app_assoc; reflexivity).
    rewrite E.
    apply (remove_debug_lines_head (l :: mid ++ [c]) tail []); [discriminate|].
    rewrite <- E, body_head, Hd, Hcl.
    rewrite skip_past_close_first by assumption. f_equal. list_len.
  - intros l rest Hd Hcl Hrest.
    rewrite <- (app_nil_r (l :: rest)).
    rewrite (remove_debug_lines_head (l :: rest) [] []);
      [reflexivity | discriminate |].
    rewrite app_nil_r, body_head, Hd, Hcl.
    rewrite skip_past_close_none by assumption. f_equal.
  - intros l conts d rest Hd Hc Hconts Hm Hcl.
    rewrite <- (Hid (remove_debug_lines rest)).
    assert (E : l :: conts ++ d :: rest = (l :: conts ++ [d]) ++ rest)
      by (cbn [app]; rewrite <- app_assoc; reflexivity).
    rewrite E.
    apply (remove_debug_lines_head (l :: conts ++ [d]) rest []); [discriminate|].
    rewrite <- E.
    apply (body_chain_closed_here [] l conts []); assumption.
  - intros l conts d mid c tail Hd Hc Hconts Hm Hcl Hmid Hcc.
    rewrite <- (Hid (remove_debug_lines tail)).
    assert (E : l :: conts ++ d :: mid ++ c :: tail =
                (l :: conts ++ d :: mid ++ [c]) ++ tail).
    { cbn [app]. rewrite <- app_assoc. cbn [app]. rewrite <- app_assoc.
      reflexivity. }
    rewrite E.
    apply (remove_debug_lines_head (l :: conts ++ d :: mid ++ [c]) tail []);
      [discriminate|].
    rewrite <- E.
    apply (body_chain_closed_later [] l conts []); assumption.
  - intros l conts t rest Hd Hc Hconts Hm Ht.
    apply (remove_debug_lines_head [l] (conts ++ t :: rest) [l]); [discriminate|].
    apply (body_chain_stop [] l conts []); assumption.
Qed.

Lemma remove_debug_lines_unfold_witness :
  remove_debug_lines [debug_open; arg_x; lone_paren; line_b] =
    remove_debug_lines [line_b].
Proof.
  refine (proj1 (proj2 (proj2 remove_debug_lines_unfold)) debug_open [arg_x]
            lone_paren [line_b] _ _ _ _);
    try reflexivity.
  repeat constructor.
Defined.

Lemma remove_debug_lines_marker_free lines :
  Forall (fun l => has_debug_marker l = false) lines ->
  remove_debug_lines lines = Some lines.
Proof.
  intros H. rewrite remove_debug_lines_run.
  rewrite (run_marker_free lines H (length lines) 0 []) by lia. reflexivity.
Qed.

Lemma continuation_marker l :
  is_continuation l = true -> has_debug_marker l = false.
Proof.
  unfold is_continuation. intros [H _]%andb_true_iff.
  destruct (has_debug_marker l); [discriminate | reflexivity].
Qed.

(** X3.  Fail-open at the end of the input: a chain candidate followed by
    nothing but continuation lines up to the end of the input is kept, and
    so are all the lines after it; the run ends with them appended to what
    had been emitted. *)
Theorem chain_open_at_end_kept pre line conts r :
  is_direct line = false -> is_candidate line = true ->
  Forall (fun l => is_continuation l = true) conts ->
  body (pre ++ line :: conts) (length pre, r) = (length pre + 1, r ++ [line])
  /\ run (pre ++ line :: conts) (length pre, r) = Some (r ++ line :: conts).
Proof.
  intros Hd Hc Hconts. split; [apply body_chain_end; assumption|].
  rewrite run_suffix, remove_debug_lines_marker_free; [reflexivity|].
  constructor; [apply not_direct_candidate_marker; assumption|].
  eapply Forall_impl; [exact Hconts|]. apply continuation_marker.
Qed.

Lemma chain_open_at_end_kept_witness :
  run [line_a; with_field_dot; arg_x] (1, [line_a]) =
    Some [line_a; with_field_dot; arg_x].
Proof.
  refine (proj2 (chain_open_at_end_kept [line_a] with_field_dot [arg_x]
                   [line_a] _ _ _));
    try reflexivity.
  repeat constructor.
Defined.

(** X4.  The cursor is never rewound and never leaves the input: from one
    turn to the next it stays or moves forward, up to the number of lines;
    and no more lines have been emitted than the cursor has passed. *)
Theorem cursor_never_rewound lines n :
  (after_turns n lines).1 <= (after_turns (S n) lines).1 <= length lines
  /\ length (after_turns n lines).2 <= (after_turns n lines).1.
Proof.
  split.
  - apply (step_cursor_bound lines (after_turns n lines)), after_turns_bound.
  - destruct (emitted_ok_after_turns lines n) as [Hsub _].
    apply sublist_length in Hsub. rewrite length_take in Hsub. lia.
Qed.

(** ** When the loop never ends *)

Lemma find_close_unassigned ahead j i :
  i <= j -> find_close ahead j i = i ->
  Forall (fun l => closes_call l = false) ahead.
Proof.
  revert j. induction ahead as [|l ahead IH]; intros j Hij; simpl;
    [constructor|].
  destruct (closes_call l) eqn:Hcl; [lia|].
  intros H. constructor; [assumption|]. apply (IH (j + 1)); [lia | exact H].
Qed.

Lemma lookahead_unassigned ahead j buf i :
  i <= j ->
  has_debug (lookahead_loop ahead j buf i) = true ->
  cursor (lookahead_loop ahead j buf i) = i ->
  exists conts d rest,
    ahead = conts ++ d :: rest
    /\ Forall (fun l => is_continuation l = true) conts
    /\ has_debug_marker d = true /\ closes_call d = false
    /\ Forall (fun l => closes_call l = false) rest.
Proof.
  revert j buf. induction ahead as [|l ahead IH]; intros j buf Hij;
    [discriminate|].
  rewrite lookahead_loop_cons. destruct (has_debug_marker l) eqn:Hm.
  - cbn [has_debug cursor]. intros _ Hc.
    destruct (closes_call l) eqn:Hcl; [lia|].
    exists [], l, ahead. repeat split; try assumption; [constructor|].
    apply (find_close_unassigned ahead (j + 1) i); [lia | exact Hc].
  - destruct (is_continuation l) eqn:Hk; [|discriminate].
    intros Hd Hc.
    destruct (IH (j + 1) (buf ++ [l])) as (conts & d & rest & -> & ? & ? & ? & ?);
      [lia | assumption | assumption |].
    exists (l :: conts), d, rest. repeat split; try assumption.
    constructor; assumption.
Qed.

(** A turn leaves the state as it was exactly at a chain whose debug call
    is never closed. *)
Lemma body_stuck_shape lines i r :
  i < length lines ->
  body lines (i, r) = (i, r) <->
  exists pre line conts d rest,
    lines = pre ++ line :: conts ++ d :: rest /\ i = length pre
    /\ is_direct line = false /\ is_candidate line = true
    /\ Forall (fun l => is_continuation l = true) conts
    /\ has_debug_marker d = true /\ closes_call d = false
    /\ Forall (fun l => closes_call l = false) rest.
Proof.
  intros Hi. split.
  - destruct (lookup_lt_is_Some_2 lines i Hi) as [line Hl].
    rewrite (body_lookup _ _ _ _ Hl).
    destruct (is_direct line) eqn:Hd.
    { unfold direct_rule. intros H%(f_equal fst).
      pose proof (skip_past_close_bounds (drop (i + 1) lines) (i + 1)).
      destruct (closes_call line); simpl in H; lia. }
    destruct (is_candidate line) eqn:Hc;
      [|intros H%(f_equal fst); simpl in H; lia].
    unfold chain_rule, chain_scan.
    destruct (has_debug (lookahead_loop (drop (i + 1) lines) (i + 1) [line] i))
      eqn:Hs; [|intros H%(f_equal fst); simpl in H; lia].
    intros Hcur%(f_equal fst). cbn [fst] in Hcur.
    assert (Hle : i <= i + 1) by lia.
    destruct (lookahead_unassigned _ _ _ _ Hle Hs Hcur)
      as (conts & d & rest & Hahead & ? & ? & ? & ?).
    exists (take i lines), line, conts, d, rest.
    rewrite <- Hahead, Nat.add_1_r, take_drop_middle by assumption.
    rewrite length_take_le by lia. repeat split; assumption.
  - intros (pre & line & conts & d & rest & -> & -> & ? & ? & ? & ? & ? & ?).
    apply body_chain_unclosed; assumption.
Qed.

Lemma run_None_stuck lines k st :
  length lines - st.1 <= k -> run lines st = None ->
  exists m,
    (Nat.iter m (step lines) st).1 < length lines
    /\ body lines (Nat.iter m (step lines) st) = Nat.iter m (step lines) st.
Proof.
  revert st. induction k as [|k IH]; intros [i r] Hk Hrun; cbn [fst] in Hk.
  - rewrite run_done in Hrun by (simpl; lia). discriminate.
  - destruct (le_lt_dec (length lines) i) as [Hle|Hlt].
    { rewrite run_done in Hrun by (simpl; lia). discriminate. }
    pose proof (body_turn lines i r Hlt) as Ht.
    rewrite run_unfold in Hrun by exact Hlt.
    assert (Hstep : step lines (i, r) = body lines (i, r)).
    { unfold step. cbn [fst].
      destruct (Nat.ltb_spec i (length lines)); [reflexivity | lia]. }
    remember (body lines (i, r)) as st' eqn:Hb.
    destruct Ht as [ | i' Hi' | line Hl Hd].
    + exists 0. simpl. split; [exact Hlt | symmetry; exact Hb].
    + destruct (IH (i', r)) as (m & Hm); [simpl; lia | exact Hrun |].
      exists (S m). rewrite Nat.iter_succ_r, Hstep. exact Hm.
    + destruct (IH (i + 1, r ++ [line])) as (m & Hm);
        [simpl; lia | exact Hrun |].
      exists (S m). rewrite Nat.iter_succ_r, Hstep. exact Hm.
Qed.

(** X5.  The transform never returns exactly when, after some number of
    turns, the cursor stands on a chain candidate whose lookahead goes over
    continuation lines to a line that contains the marker and does not end
    with a closing parenthesis, and no line after that one ends with a
    closing parenthesis. *)
Theorem never_returns_iff lines :
  remove_debug_lines lines = None <->
  exists n pre line conts d rest,
    lines = pre ++ line :: conts ++ d :: rest
    /\ (after_turns n lines).1 = length pre
    /\ is_direct line = false /\ is_candidate line = true
    /\ Forall (fun l => is_continuation l = true) conts
    /\ has_debug_marker d = true /\ closes_call d = false
    /\ Forall (fun l => closes_call l = false) rest.
Proof.
  split.
  - intros H. rewrite remove_debug_lines_run in H.
    destruct (run_None_stuck lines (length lines) (0, [])) as (n & Hn & Hb);
      [simpl; lia | exact H |].
    fold (after_turns n lines) in Hn, Hb.
    destruct (after_turns n lines) as [i r] eqn:Hst. cbn [fst] in Hn.
    apply (body_stuck_shape lines i r Hn) in Hb
      as (pre & line & conts & d & rest & ? & ? & ?).
    exists n, pre, line, conts, d, rest. rewrite Hst. auto.
  - intros (n & pre & line & conts & d & rest & Hl & Hn & ? & ? & ? & ? & ? & ?).
    rewrite (run_after_turns lines n).
    destruct (after_turns n lines) as [i r]. cbn [fst] in Hn. subst i lines.
    apply loop_chain_unclosed; assumption.
Qed.

(** X6.  The transform returns on every input in which each line that
    contains the marker ends with a closing parenthesis or has a line after
    it that does. *)
Theorem returns_when_calls_closed lines :
  calls_closed lines -> exists out, remove_debug_lines lines = Some out.
Proof.
  intros Hclosed. rewrite remove_debug_lines_run.
  apply (run_returns lines) with (k := length lines).
  - intros i r Hi. apply body_advances; assumption.
  - simpl. lia.
Qed.

Lemma returns_when_calls_closed_witness :
  exists out,
    remove_debug_lines [line_a; debug_open; arg_x; lone_paren; line_b] =
      Some out.
Proof.
  apply returns_when_calls_closed.
  intros j d Hj Hm Hcl. exists 3, lone_paren. repeat split.
  destruct j as [|[|[|[|[|j]]]]]; simpl in Hj; try discriminate;
    injection Hj as <-; try discriminate; lia.
Defined.

(** ** When the input is returned as it is *)

Lemma body_keep_iff lines i line r :
  lines !! i = Some line ->
  body lines (i, r) = (i + 1, r ++ [line]) <->
  is_direct line = false
  /\ (is_candidate line = true -> has_debug (chain_scan lines i line) = false).
Proof.
  intros Hl. rewrite (body_lookup _ _ _ _ Hl).
  assert (Hne : forall k, (k, r) <> (i + 1, r ++ [line])).
  { intros k H%(f_equal (fun st => length st.2)). simpl in H.
    rewrite length_app in H. simpl in H. lia. }
  destruct (is_direct line).
  - unfold direct_rule. split; [|intros [? _]; discriminate].
    destruct (closes_call line); intros H; destruct (Hne _ H).
  - destruct (is_candidate line); [|split; [split; [reflexivity | discriminate] | reflexivity]].
    unfold chain_rule. destruct (has_debug (chain_scan lines i line)).
    + split; [intros H; destruct (Hne _ H) | intros [_ H]; discriminate (H eq_refl)].
    + split; [auto | reflexivity].
Qed.

Lemma run_all_kept lines :
  (forall i line, lines !! i = Some line ->
     is_direct line = false
     /\ (is_candidate line = true ->
         has_debug (chain_scan lines i line) = false)) ->
  forall k i r, length lines - i = k -> i <= length lines ->
  run lines (i, r) = Some (r ++ drop i lines).
Proof.
  intros Hkept k. induction k as [|k IH]; intros i r Hk Hi.
  - rewrite run_done by (simpl; lia). rewrite drop_ge by lia.
    rewrite app_nil_r. reflexivity.
  - destruct (lookup_lt_is_Some_2 lines i) as [line Hl]; [lia|].
    rewrite run_unfold by (simpl; lia).
    rewrite (proj2 (body_keep_iff lines i line r Hl) (Hkept i line Hl)).
    rewrite IH by lia. rewrite (drop_S _ _ _ Hl), Nat.add_1_r, <- app_assoc.
    reflexivity.
Qed.

Lemma all_kept_so_far_body lines st :
  st.1 < length lines ->
  all_kept_so_far lines st -> all_kept_so_far lines (body lines st).
Proof.
  destruct st as [i r]. intros Hi [Hlen Hkept]. cbn [fst snd] in *.
  pose proof (body_turn lines i r Hi) as Ht.
  remember (body lines (i, r)) as st' eqn:Hb.
  destruct Ht as [ | i' Hi' | line Hl Hd]; split; cbn [fst snd].
  - exact Hlen.
  - exact Hkept.
  - lia.
  - intros Heq. lia.
  - rewrite length_app. simpl. lia.
  - rewrite length_app. simpl. intros Heq k line' Hk Hl'.
    destruct (Nat.eq_dec k i) as [->|Hne].
    + assert (line' = line) as -> by congruence.
      apply (body_keep_iff lines i line r Hl). symmetry. exact Hb.
    + apply Hkept; [lia | lia | exact Hl'].
Qed.

(** X7.  The transform returns its input unchanged exactly when no line
    starts a direct statement and the lookahead of every chain candidate
    ends without a match. *)
Theorem unchanged_iff lines :
  remove_debug_lines lines = Some lines <->
  forall i line, lines !! i = Some line ->
    is_direct line = false
    /\ (is_candidate line = true ->
        has_debug (chain_scan lines i line) = false).
Proof.
  split.
  - intros H. rewrite remove_debug_lines_run in H.
    destruct (run_invariant (all_kept_so_far lines) lines
                (all_kept_so_far_body lines) (0, []) lines) as (i & Hi & Hlen & Hk).
    { split; cbn [fst snd]; [simpl; lia | intros _ k line Hlt; lia]. }
    { exact H. }
    cbn [fst snd] in *. intros k line Hl.
    apply Hk; [lia | | exact Hl].
    pose proof (lookup_lt_Some _ _ _ Hl). lia.
  - intros H. rewrite remove_debug_lines_run.
    rewrite (run_all_kept lines H (length lines) 0 []) by lia. reflexivity.
Qed.

Lemma unchanged_iff_witness :
  remove_debug_lines [line_a; comment_debug; line_b] =
    Some [line_a; comment_debug; line_b].
Proof.
  apply unchanged_iff. intros i line Hl.
  destruct i as [|[|[|i]]]; simpl in Hl; try discriminate;
    injection Hl as <-; split; try reflexivity; discriminate.
Defined.

Lemma never_returns_iff_witness :
  remove_debug_lines unterminated_chain = None.
Proof.
  apply never_returns_iff.
  exists 0, [], x_with_field_dot, [], y_debug_open, [].
  repeat split; constructor.
Defined.

(** ** The lookahead buffer *)

(** X8.  The buffer of the lookahead is only written: whatever it holds
    when the scan starts, the scan ends with the same flag and the same
    cursor, and the buffer itself is what it held followed by the lines
    that were scanned, a prefix of the lines ahead. *)
Theorem lookahead_buffer_unused ahead j buf buf' i :
  has_debug (lookahead_loop ahead j buf i) =
    has_debug (lookahead_loop ahead j buf' i)
  /\ cursor (lookahead_loop ahead j buf i) =
      cursor (lookahead_loop ahead j buf' i)
  /\ exists k, lookahead (lookahead_loop ahead j buf i) = buf ++ take k ahead.
Proof.
  revert j buf buf'. induction ahead as [|l ahead IH]; intros j buf buf'.
  - repeat split. exists 0. simpl. rewrite app_nil_r. reflexivity.
  - rewrite !lookahead_loop_cons. destruct (has_debug_marker l).
    { repeat split. exists 1. reflexivity. }
    destruct (is_continuation l).
    + destruct (IH (j + 1) (buf ++ [l]) (buf' ++ [l])) as (Hd & Hc & k & Hk).
      repeat split; [exact Hd | exact Hc |].
      exists (S k). rewrite Hk, <- app_assoc. reflexivity.
    + repeat split. exists 1. reflexivity.
Qed.

(** ** Text and lines *)

Lemma split_lines_line l : newline ∉ l -> split_lines l = [l].
Proof.
  induction l as [|c l IH]; [reflexivity|].
  intros [Hc Hl]%not_elem_of_cons. simpl.
  destruct (N.eqb_spec c newline); [congruence|].
  rewrite IH by assumption. reflexivity.
Qed.

Lemma split_lines_app_newline l t :
  newline ∉ l -> split_lines (l ++ newline :: t) = l :: split_lines t.
Proof.
  induction l as [|c l IH]; [reflexivity|].
  intros [Hc Hl]%not_elem_of_cons. simpl.
  destruct (N.eqb_spec c newline); [congruence|].
  rewrite IH by assumption. reflexivity.
Qed.

Lemma split_join_lines ls :
  ls <> [] -> Forall (fun l => newline ∉ l) ls ->
  split_lines (join_lines ls) = ls.
Proof.
  intros Hne H. induction H as [|l ls Hl Hls IH]; [congruence|].
  destruct ls as [|l' ls].
  - simpl. apply split_lines_line, Hl.
  - change (join_lines (l :: l' :: ls))
      with (l ++ newline :: join_lines (l' :: ls)).
    rewrite split_lines_app_newline by assumption.
    rewrite IH by discriminate. reflexivity.
Qed.

Lemma split_lines_no_newline c : Forall (fun l => newline ∉ l) (split_lines c).
Proof.
  induction c as [|x c IH]; simpl.
  - repeat constructor. apply not_elem_of_nil.
  - destruct (N.eqb_spec x newline) as [->|Hx].
    + constructor; [apply not_elem_of_nil | exact IH].
    + destruct (split_lines c) as [|l ls].
      * repeat constructor. intros [?|H]%elem_of_cons; [congruence|].
        inversion H.
      * inversion IH as [|? ? Hl Hls]; subst. constructor; [|exact Hls].
        intros [?|H]%elem_of_cons; [congruence | exact (Hl H)].
Qed.

Lemma split_lines_nonempty c : split_lines c <> [].
Proof.
  destruct (split_lines_head c) as (l & ls & b & -> & _). discriminate.
Qed.

(** X9.  Splitting a text at its newlines and joining lines with newlines
    are inverse to each other: every text is the join of its lines, which
    form a non-empty sequence of newline-free lines, and every such
    sequence is the lines of its join.  So [remove_debug_logs] on the join
    of such a sequence is the join of the transform of the sequence. *)
Theorem text_lines_round_trip :
  (forall content,
     join_lines (split_lines content) = content
     /\ split_lines content <> []
     /\ Forall (fun l => newline ∉ l) (split_lines content))
  /\ (forall lines,
       lines <> [] -> Forall (fun l => newline ∉ l) lines ->
       split_lines (join_lines lines) = lines
       /\ remove_debug_logs (join_lines lines) =
          join_lines <$> remove_debug_lines lines).
Proof.
  split.
  - intros content. split; [apply join_split_lines|].
    split; [apply split_lines_nonempty | apply split_lines_no_newline].
  - intros lines Hne Hnl. split; [apply split_join_lines; assumption|].
    unfold remove_debug_logs. rewrite split_join_lines by assumption.
    reflexivity.
Qed.

Lemma text_lines_round_trip_witness :
  split_lines (join_lines chain_info_sample) = chain_info_sample.
Proof.
  refine (proj1 (proj2 text_lines_round_trip chain_info_sample _ _)).
  - discriminate.
  - repeat constructor; vm_compute; intros H;
      repeat (apply elem_of_cons in H as [H|H]; [discriminate|]);
      inversion H.
Defined.

Lemma remove_debug_logs_sublist content text :
  remove_debug_logs content = Some text ->
  (text = [] /\ remove_debug_lines (split_lines content) = Some [])
  \/ split_lines text `sublist_of` split_lines content.
Proof.
  unfold remove_debug_logs.
  destruct (remove_debug_lines (split_lines content)) as [out|] eqn:H;
    [|discriminate].
  intros [= <-]. destruct (emitted_ok_result _ _ H) as [Hsub _].
  destruct out as [|l out]; [left; auto|]. right.
  rewrite split_join_lines; [exact Hsub | discriminate |].
  apply Forall_forall. intros x Hx.
  apply (proj1 (Forall_forall _ _) (split_lines_no_newline content)).
  eapply elem_of_sublist; [exact Hx | exact Hsub].
Qed.

(** X10.  What [remove_debug_logs] returns is either the empty text, when
    every line has been removed, or a text whose lines are a subsequence of
    the lines of the input text. *)
Theorem output_text_lines content text :
  remove_debug_logs content = Some text ->
  (text = [] /\ remove_debug_lines (split_lines content) = Some [])
  \/ split_lines text `sublist_of` split_lines content.
Proof.
  intros Hret. unfold remove_debug_logs in Hret.
  destruct (remove_debug_lines (split_lines content)) as [out|] eqn:Hout;
    [|discriminate].
  injection Hret as <-.
  destruct (emitted_ok_result _ _ Hout) as [Hsub _].
  destruct out as [|l out]; [left; split; reflexivity|]. right.
  rewrite split_join_lines; [exact Hsub | discriminate |].
  pose proof (split_lines_no_newline content) as Hnl.
  rewrite Forall_forall in Hnl |- *. intros x Hx.
  apply Hnl. eapply elem_of_sublist; [exact Hx | exact Hsub].
Qed.

Lemma output_text_lines_witness :
  (join_lines [line_a; line_b] = []
   /\ remove_debug_lines (split_lines (join_lines chain_dot_debug_sample)) =
        Some [])
  \/ split_lines (join_lines [line_a; line_b]) `sublist_of`
       split_lines (join_lines chain_dot_debug_sample).
Proof.
  apply (output_text_lines (join_lines chain_dot_debug_sample)). reflexivity.
Defined.

(** * The callers *)

Section Callers.

Context `{FileSystem FS path}.


(** X11.  [process_file] returns [True] only after it has read a text that
    contains the marker and written back to the same file, without error,
    the text that [remove_debug_logs] returns for it, whose lines are a
    subsequence of the lines read unless it is empty.  When it returns
    [False], either nothing was written (the file could not be read, or its
    text does not contain the marker) or the write raised. *)
Theorem process_file_outcome fs p fs' printed b :
  process_file fs p = Some (fs', printed, b) ->
  (b = true /\ printed = []
   /\ exists content text,
        read_text fs p = Some content
        /\ contains debug_marker content = true
        /\ remove_debug_logs content = Some text
        /\ write_text fs p text = (fs', true)
        /\ (text = [] \/ split_lines text `sublist_of` split_lines content))
  \/ (b = false /\ fs' = fs
      /\ (read_text fs p = None /\ printed = [ErrorProcessing p]
          \/ exists content,
               read_text fs p = Some content
               /\ contains debug_marker content = false /\ printed = []))
  \/ (b = false /\ printed = [ErrorProcessing p]
      /\ exists content text,
           read_text fs p = Some content
           /\ remove_debug_logs content = Some text
           /\ write_text fs p text = (fs', false)).
Proof.
  unfold process_file. destruct (read_text fs p) as [content|] eqn:Hr.
  2:{ intros [= <- <- <-]. right. left. auto. }
  destruct (contains debug_marker content) eqn:Hm; cbn [negb].
  2:{ intros [= <- <- <-]. right. left. repeat split. right. eauto. }
  destruct (remove_debug_logs content) as [text|] eqn:Ht; [|discriminate].
  destruct (write_text fs p text) as [fs1 [|]] eqn:Hw; intros [= <- <- <-].
  - left. repeat split. exists content, text. repeat split; try assumption.
    destruct (remove_debug_logs_sublist _ _ Ht) as [[-> _]|Hs]; auto.
  - right. right. repeat split. exists content, text. auto.
Qed.

(** X12.  A file whose text contains the marker, but in which no line
    starts a direct statement and no chain resolves to a debug call (the
    marker occurs in comment lines only), is written back with the text it
    had and reported as modified. *)
Theorem process_file_same_text fs p content fs' :
  read_text fs p = Some content ->
  contains debug_marker content = true ->
  (forall i line, split_lines content !! i = Some line ->
     is_direct line = false
     /\ (is_candidate line = true ->
         has_debug (chain_scan (split_lines content) i line) = false)) ->
  write_text fs p content = (fs', true) ->
  process_file fs p = Some (fs', [], true).
Proof.
  intros Hr Hm Hkept Hw. unfold process_file, remove_debug_logs.
  rewrite Hr, Hm. cbn [negb]. rewrite remove_debug_lines_run.
  rewrite (run_all_kept _ Hkept (length (split_lines content)) 0 []) by lia.
  rewrite drop_0. cbn [app fmap option_fmap option_map].
  rewrite join_split_lines, Hw. reflexivity.
Qed.

Lemma modified_files_app (a b : list (message path)) :
  modified_files (a ++ b) = modified_files a ++ modified_files b.
Proof. apply omap_app. Qed.




Lemma process_all_untouched fs go_files n out :
  (forall p content,
     p ∈ go_files -> read_text fs p = Some content ->
     contains debug_marker content = false) ->
  exists added,
    process_all fs go_files n out = Some (fs, n, out ++ added)
    /\ modified_files added = [].
Proof.
  revert n out. induction go_files as [|p go_files IH]; intros n out Hfree.
  - exists []. rewrite app_nil_r. auto.
  - cbn [process_all]. unfold process_file.
    destruct (IH n (out ++ [ErrorProcessing p])) as (added1 & H1 & Hm1).
    { intros q c Hq. apply Hfree. apply elem_of_cons. auto. }
    destruct (IH n (out ++ [])) as (added2 & H2 & Hm2).
    { intros q c Hq. apply Hfree. apply elem_of_cons. auto. }
    destruct (read_text fs p) as [content|] eqn:Hr.
    + rewrite (Hfree p content) by (try apply elem_of_cons; auto).
      cbn [negb]. rewrite H2. exists added2. rewrite app_nil_r. auto.
    + rewrite H1. exists ([ErrorProcessing p] ++ added1).
      rewrite <- app_assoc. split; [reflexivity|].
      rewrite modified_files_app, Hm1. reflexivity.
Qed.

(** X14.  When the base directory exists and no file found in it has a
    readable text that contains the marker, [main] ends with status 0, the
    files are as they were, and no file is reported as modified. *)
Theorem main_untouched_tree fs :
  base_dir_exists fs = true ->
  (forall p content,
     p ∈ rglob_go fs -> read_text fs p = Some content ->
     contains debug_marker content = false) ->
  exists out, main fs = Some (fs, out, 0) /\ modified_files out = [].
Proof.
  intros He Hfree. unfold main. rewrite He. cbn [negb].
  destruct (rglob_go fs) as [|p go_files] eqn:Hg; [eexists; split; reflexivity|].
  destruct (process_all_untouched fs (p :: go_files) 0 [Removing; BlankLine]
              Hfree) as (added & -> & Hm).
  eexists. split; [reflexivity|].
  rewrite !modified_files_app, Hm. reflexivity.
Qed.

End Callers.

Lemma process_file_outcome_witness :
  exists text,
    remove_debug_logs (join_lines [line_a; debug_x; line_b]) = Some text
    /\ write_text sample_store (py "a.go") text =
         ([(py "a.go", join_lines [line_a; line_b]);
           (py "b.go", join_lines chain_info_sample)], true).
Proof.
  assert (E : process_file sample_store (py "a.go") =
              Some ([(py "a.go", join_lines [line_a; line_b]);
                     (py "b.go", join_lines chain_info_sample)], [], true))
    by reflexivity.
  destruct (process_file_outcome _ _ _ _ _ E)
    as [(_ & _ & content & text & Hr & _ & Ht & Hw & _)
       | [(Hb & _) | (Hb & _)]]; [|discriminate Hb ..].
  injection Hr as <-. exists text. split; [exact Ht | exact Hw].
Defined.

Lemma process_file_same_text_witness :
  process_file commented_store (py "c.go") = Some (commented_store, [], true).
Proof.
  apply (process_file_same_text commented_store (py "c.go") comment_debug);
    try reflexivity.
  intros i line Hl. destruct i as [|i]; simpl in Hl; [|discriminate].
  injection Hl as <-. split; [reflexivity | discriminate].
Defined.


Lemma main_untouched_tree_witness :
  exists out,
    main quiet_store = Some (quiet_store, out, 0) /\ modified_files out = [].
Proof.
  apply main_untouched_tree; [reflexivity|].
  intros p content Hp Hr. apply list_elem_of_singleton in Hp. subst p.
  injection Hr as <-. reflexivity.
Defined.

(** * Margins and kinds of lines *)

Lemma lstrip_spaces ws l :
  Forall (fun c => isspace c = true) ws -> lstrip (ws ++ l) = lstrip l.
Proof.
  intros H. induction H as [|c ws Hc _ IH]; [reflexivity|].
  simpl. rewrite Hc. exact IH.
Qed.

Lemma lstrip_only_spaces ws :
  Forall (fun c => isspace c = true) ws -> lstrip ws = [].
Proof.
  intros H. rewrite <- (app_nil_r ws). apply lstrip_spaces, H.
Qed.

Lemma lstrip_app l k :
  lstrip (l ++ k) =
    match lstrip l with
    | [] => lstrip k
    | _ :: _ => lstrip l ++ k
    end.
Proof.
  induction l as [|c l IH]; simpl; [destruct (lstrip k); reflexivity|].
  destruct (isspace c); [exact IH | reflexivity].
Qed.

Lemma rstrip_spaces l ws :
  Forall (fun c => isspace c = true) ws -> rstrip (l ++ ws) = rstrip l.
Proof.
  intros H. unfold rstrip. rewrite rev_app_distr, lstrip_spaces; [reflexivity|].
  apply Forall_rev, H.
Qed.

Lemma strip_margins ws ws' l :
  Forall (fun c => isspace c = true) ws ->
  Forall (fun c => isspace c = true) ws' ->
  strip (ws ++ l ++ ws') = strip l.
Proof.
  intros Hws Hws'. unfold strip. rewrite lstrip_spaces by assumption.
  rewrite lstrip_app. destruct (lstrip l) as [|c t] eqn:Hl.
  - rewrite lstrip_only_spaces by assumption. reflexivity.
  - apply rstrip_spaces, Hws'.
Qed.

Lemma closes_call_lstrip l :
  closes_call l = startswith close_paren (lstrip (rev l)).
Proof. unfold closes_call, endswith, rstrip. rewrite rev_involutive. reflexivity. Qed.

Lemma closes_call_margins ws ws' l :
  Forall (fun c => isspace c = true) ws ->
  Forall (fun c => isspace c = true) ws' ->
  closes_call (ws ++ l ++ ws') = closes_call l.
Proof.
  intros Hws Hws'. rewrite !closes_call_lstrip.
  rewrite !rev_app_distr, <- app_assoc.
  rewrite lstrip_spaces by (apply Forall_rev, Hws').
  rewrite lstrip_app. destruct (lstrip (rev l)) as [|c t].
  - rewrite lstrip_only_spaces by (apply Forall_rev, Hws). reflexivity.
  - reflexivity.
Qed.

Lemma contains_skip_space a m w s :
  isspace a = false -> isspace w = true ->
  contains (a :: m) (w :: s) = contains (a :: m) s.
Proof.
  intros Ha Hw. cbn [contains startswith].
  destruct (N.eqb_spec a w) as [->|_]; [congruence | reflexivity].
Qed.

Lemma contains_spaces_before a m ws s :
  isspace a = false -> Forall (fun c => isspace c = true) ws ->
  contains (a :: m) (ws ++ s) = contains (a :: m) s.
Proof.
  intros Ha H. induction H as [|w ws Hw _ IH]; [reflexivity|].
  cbn [app]. rewrite contains_skip_space by assumption. exact IH.
Qed.

Lemma contains_rev m s : contains (rev m) (rev s) = contains m s.
Proof.
  assert (Hdir : forall m s, contains m s = true ->
                   contains (rev m) (rev s) = true).
  { intros m0 s0 (a & b & ->)%contains_infix. apply contains_infix.
    exists (rev b), (rev a). rewrite !rev_app_distr, <- app_assoc. reflexivity. }
  destruct (contains m s) eqn:H1; [apply Hdir, H1|].
  destruct (contains (rev m) (rev s)) eqn:H2; [|reflexivity].
  apply Hdir in H2. rewrite !rev_involutive in H2. congruence.
Qed.

Lemma contains_margins a m b m' ws ws' l :
  rev (a :: m) = b :: m' -> isspace a = false -> isspace b = false ->
  Forall (fun c => isspace c = true) ws ->
  Forall (fun c => isspace c = true) ws' ->
  contains (a :: m) (ws ++ l ++ ws') = contains (a :: m) l.
Proof.
  intros Hrev Ha Hb Hws Hws'.
  rewrite contains_spaces_before by assumption.
  rewrite <- contains_rev, rev_app_distr, Hrev.
  rewrite contains_spaces_before by (try apply Forall_rev; assumption).
  rewrite <- Hrev. apply contains_rev.
Qed.

Lemma same_kind_with_margins ws ws' l :
  Forall (fun c => isspace c = true) ws ->
  Forall (fun c => isspace c = true) ws' ->
  same_kind l (with_margins ws ws' l).
Proof.
  intros Hws Hws'. unfold with_margins.
  assert (Hm : has_debug_marker (ws ++ l ++ ws') = has_debug_marker l).
  { unfold has_debug_marker, debug_marker. cbn [py N_of_ascii].
    eapply contains_margins; try eassumption; reflexivity. }
  assert (Hs : strip (ws ++ l ++ ws') = strip l)
    by (apply strip_margins; assumption).
  unfold same_kind. split; [exact Hm|].
  split; [unfold is_comment; rewrite Hs; reflexivity|].
  split.
  { unfold has_opener, with_fields_opener, with_field_opener. f_equal.
    - cbn [py N_of_ascii].
      eapply contains_margins; try eassumption; reflexivity.
    - cbn [py N_of_ascii].
      eapply contains_margins; try eassumption; reflexivity. }
  split; [apply closes_call_margins; assumption|].
  unfold is_continuation. rewrite Hm, Hs. reflexivity.
Qed.

(** X15.  White space around a line does not change its kind: with any
    white space put before it and after it (indentation, trailing blanks),
    a line has the marker, is a comment, has an opener, closes a call or is
    a continuation line exactly as before. *)
Theorem margins_keep_kind ws ws' l :
  Forall (fun c => isspace c = true) ws ->
  Forall (fun c => isspace c = true) ws' ->
  has_debug_marker (ws ++ l ++ ws') = has_debug_marker l
  /\ is_comment (ws ++ l ++ ws') = is_comment l
  /\ has_opener (ws ++ l ++ ws') = has_opener l
  /\ closes_call (ws ++ l ++ ws') = closes_call l
  /\ is_continuation (ws ++ l ++ ws') = is_continuation l.
Proof.
  intros Hws Hws'.
  destruct (same_kind_with_margins ws ws' l Hws Hws')
    as (Hmarker & Hcomment & Hopener & Hcloses & Hcont).
  unfold with_margins in *. repeat split; assumption.
Qed.

Lemma margins_keep_kind_witness :
  closes_call (py "    " ++ debug_x ++ py "  ") = closes_call debug_x
  /\ is_comment (py "    " ++ comment_debug ++ py "  ") = true.
Proof.
  split.
  - refine (proj1 (proj2 (proj2 (proj2
              (margins_keep_kind (py "    ") (py "  ") debug_x _ _)))));
      repeat constructor.
  - refine (proj1 (proj2
              (margins_keep_kind (py "    ") (py "  ") comment_debug _ _)));
      repeat constructor.
Defined.

Section KindPreserving.

Variable f : pystr -> pystr.
Hypothesis f_same_kind : forall l, same_kind l (f l).

Lemma f_marker l : has_debug_marker (f l) = has_debug_marker l.
Proof. apply f_same_kind. Qed.

Lemma f_closes l : closes_call (f l) = closes_call l.
Proof. apply f_same_kind. Qed.

Lemma f_continuation l : is_continuation (f l) = is_continuation l.
Proof. apply f_same_kind. Qed.

Lemma f_direct l : is_direct (f l) = is_direct l.
Proof.
  unfold is_direct. destruct (f_same_kind l) as (-> & -> & _). reflexivity.
Qed.

Lemma f_candidate l : is_candidate (f l) = is_candidate l.
Proof.
  unfold is_candidate. destruct (f_same_kind l) as (_ & -> & -> & _).
  reflexivity.
Qed.

Lemma skip_past_close_fmap ahead i :
  skip_past_close (f <$> ahead) i = skip_past_close ahead i.
Proof.
  revert i. induction ahead as [|l ahead IH]; intros i; [reflexivity|].
  cbn [fmap list_fmap skip_past_close]. rewrite f_closes.
  destruct (closes_call l); [reflexivity | apply IH].
Qed.

Lemma find_close_fmap ahead j i :
  find_close (f <$> ahead) j i = find_close ahead j i.
Proof.
  revert j. induction ahead as [|l ahead IH]; intros j; [reflexivity|].
  cbn [fmap list_fmap find_close]. rewrite f_closes.
  destruct (closes_call l); [reflexivity | apply IH].
Qed.

Lemma lookahead_loop_fmap ahead j buf i :
  lookahead_loop (f <$> ahead) j (f <$> buf) i =
    let s := lookahead_loop ahead j buf i in
    Scan (f <$> lookahead s) (has_debug s) (cursor s).
Proof.
  revert j buf. induction ahead as [|l ahead IH]; intros j buf;
    [reflexivity|].
  rewrite fmap_cons, !lookahead_loop_cons.
  rewrite f_marker, f_closes, f_continuation, find_close_fmap.
  rewrite <- fmap_snoc.
  destruct (has_debug_marker l); [reflexivity|].
  destruct (is_continuation l); [apply IH | reflexivity].
Qed.

Lemma body_fmap lines i r :
  body (f <$> lines) (i, f <$> r) =
    ((body lines (i, r)).1, f <$> (body lines (i, r)).2).
Proof.
  unfold body. rewrite list_lookup_fmap.
  destruct (lines !! i) as [line|]; [|reflexivity].
  cbn [fmap option_fmap option_map]. rewrite f_direct, f_candidate.
  destruct (is_direct line).
  - unfold direct_rule. rewrite f_closes, <- fmap_drop, skip_past_close_fmap.
    destruct (closes_call line); reflexivity.
  - destruct (is_candidate line); [|cbn [fst snd]; rewrite fmap_snoc; reflexivity].
    unfold chain_rule, chain_scan. rewrite <- fmap_drop.
    change [f line] with (f <$> [line]). rewrite lookahead_loop_fmap.
    cbv zeta. cbn [has_debug cursor].
    destruct (has_debug (lookahead_loop (drop (i + 1) lines) (i + 1) [line] i));
      cbn [fst snd]; [reflexivity | rewrite fmap_snoc; reflexivity].
Qed.

Lemma loop_fmap fuel (lines : list pystr) i (r : list pystr) :
  loop fuel (f <$> lines) (i, f <$> r) =
    (fmap (M := list) f) <$> loop fuel lines (i, r).
Proof.
  revert i r. induction fuel as [|fuel IH]; intros i r; [reflexivity|].
  cbn [loop fst snd]. rewrite length_fmap, body_fmap.
  destruct (i <? length lines); [|reflexivity].
  destruct (body lines (i, r)) as [i' r']. apply IH.
Qed.

Lemma remove_debug_lines_fmap (lines : list pystr) :
  remove_debug_lines (f <$> lines) =
    (fmap (M := list) f) <$> remove_debug_lines lines.
Proof.
  unfold remove_debug_lines. rewrite length_fmap.
  change (@nil pystr) with (f <$> @nil pystr) at 1. apply loop_fmap.
Qed.

End KindPreserving.

(** X16.  The transform depends on a line only through its kind: rewriting
    every line by a function that keeps the kind of each line, then
    transforming, gives the lines that the transform keeps, rewritten; and
    the rewritten run never ends exactly when the original never ends.  In
    particular the same margins of white space put around every line are
    carried through unchanged. *)
Theorem transform_by_kind :
  (forall f lines,
     (forall l, same_kind l (f l)) ->
     remove_debug_lines (f <$> lines) =
       (fmap (M := list) f) <$> remove_debug_lines lines)
  /\ (forall ws ws' lines,
       Forall (fun c => isspace c = true) ws ->
       Forall (fun c => isspace c = true) ws' ->
       remove_debug_lines (with_margins ws ws' <$> lines) =
         (fmap (M := list) (with_margins ws ws'))
           <$> remove_debug_lines lines).
Proof.
  split.
  - intros f lines Hf. apply remove_debug_lines_fmap, Hf.
  - intros ws ws' lines Hws Hws'. apply remove_debug_lines_fmap.
    intros l. apply same_kind_with_margins; assumption.
Qed.

Lemma transform_by_kind_witness :
  remove_debug_lines (with_margins (py "  ") [] <$> chain_dot_debug_sample) =
    Some (with_margins (py "  ") [] <$> [line_a; line_b]).
Proof.
  refine (eq_trans
            (proj2 transform_by_kind (py "  ") [] chain_dot_debug_sample _ _)
            _).
  - repeat constructor.
  - constructor.
  - reflexivity.
Defined.

(** * The number of turns *)

Lemma after_turns_advance lines out n :
  remove_debug_lines lines = Some out ->
  Nat.min n (length lines) <= (after_turns n lines).1.
Proof.
  intros Hout. induction n as [|n IH]; [cbn [Nat.min]; lia|].
  pose proof (after_turns_bound lines n) as Hle.
  pose proof (run_after_turns lines n) as Hrun. rewrite Hout in Hrun.
  change (after_turns (S n) lines) with (step lines (after_turns n lines)).
  remember (after_turns n lines) as st eqn:Hst. clear Hst.
  destruct st as [i r]. cbn [fst] in *.
  unfold step. cbn [fst].
  destruct (Nat.ltb_spec i (length lines)) as [Hi|Hi]; [|cbn [fst]; lia].
  pose proof (body_turn lines i r Hi) as Ht.
  remember (body lines (i, r)) as st' eqn:Hb.
  destruct Ht as [ | i' Hi' | line Hl Hd]; cbn [fst]; [|lia ..].
  symmetry in Hb. pose proof (loop_stuck lines (i, r) Hi Hb) as Hstuck.
  unfold run in Hrun. rewrite Hstuck in Hrun. discriminate.
Qed.

(** X17.  When the transform returns, the outer loop has ended within as
    many turns as the input has lines, with the cursor exactly at the end
    of the input. *)
Theorem returns_within_length lines out :
  remove_debug_lines lines = Some out ->
  after_turns (length lines) lines = (length lines, out).
Proof.
  intros Hout.
  pose proof (after_turns_advance lines out (length lines) Hout) as Hge.
  pose proof (after_turns_bound lines (length lines)) as Hle.
  pose proof (run_after_turns lines (length lines)) as Hrun.
  rewrite Hout in Hrun.
  remember (after_turns (length lines) lines) as st eqn:Hst. clear Hst.
  destruct st as [i r]. cbn [fst] in *.
  rewrite run_done in Hrun by (simpl; lia). injection Hrun as ->.
  f_equal. lia.
Qed.

Lemma returns_within_length_witness :
  after_turns 4 chain_dot_debug_sample = (4, [line_a; line_b]).
Proof. apply (returns_within_length chain_dot_debug_sample). reflexivity. Defined.
